(** * Elemental Survivors: the frame driver, vector math, input and spawn
      scheduler, embedded from the TypeScript sources.

    Numbers.  A JavaScript [number] is modelled as a real number: arithmetic
    is exact, there is no rounding, overflow, infinity or NaN.  Comparisons
    of the source ([===], [>], [>=]) are boolean functions decided with the
    order of the reals.  Where a property depends on what binary64 does at
    the ends of its range, the methods concerned are given a second time on
    the primitive binary64 numbers, in [Binary64]. *)

From Stdlib Require Import Reals Lra List String Ascii Bool Arith Lia.
From Stdlib Require Import DecimalString.
From Stdlib Require PrimFloat.
Import ListNotations.

Open Scope R_scope.

(** ** JavaScript primitives used by the sources *)

Module JS.

Definition number := R.

(** [a === b] on numbers. *)
Definition strict_eq (a b : number) : bool :=
  if Req_dec_T a b then true else false.

(** [a > b] *)
Definition gt (a b : number) : bool :=
  if Rlt_dec b a then true else false.

(** [a >= b] *)
Definition ge (a b : number) : bool :=
  if Rle_dec b a then true else false.

(** [a < b] *)
Definition lt (a b : number) : bool :=
  if Rlt_dec a b then true else false.

(** [a <= b] *)
Definition le (a b : number) : bool :=
  if Rle_dec a b then true else false.

Definition Math_sqrt : number -> number := sqrt.
Definition Math_max : number -> number -> number := Rmax.
Definition Math_min : number -> number -> number := Rmin.
Definition Math_cos : number -> number := cos.
Definition Math_sin : number -> number := sin.
Definition Math_PI : number := PI.

(** [Math.floor]: the greatest integer not above its argument. *)
Definition Math_floor (r : number) : number := IZR (Int_part r).

(** Exceptions: a computation either returns or throws an [Error]. *)
Record Error := { message : string }.

Inductive result (A : Type) :=
| Return (a : A)
| Throw (e : Error).
Arguments Return {A} a.
Arguments Throw {A} e.

End JS.

(** ** src/utils/Vector2.ts *)

Module Vector2.
Import JS.

Record Vector2 := new { x : number; y : number }.

Definition add (this other : Vector2) : Vector2 :=
  new (x this + x other) (y this + y other).

Definition subtract (this other : Vector2) : Vector2 :=
  new (x this - x other) (y this - y other).

Definition multiply (this : Vector2) (scalar : number) : Vector2 :=
  new (x this * scalar) (y this * scalar).

Definition length (this : Vector2) : number :=
  Math_sqrt (x this * x this + y this * y this).

(** A division [a / b] together with the record of its divisor. *)
Definition divide (a b : number) : number * list number := (a / b, [b]).

(** [normalize], returning next to its result the divisors of the
    divisions it executed, in order. *)
Definition normalize_run (this : Vector2) : Vector2 * list number :=
  let len := length this in
  if strict_eq len 0 then (new 0 0, [])
  else
    let '(qx, dx) := divide (x this) len in
    let '(qy, dy) := divide (y this) len in
    (new qx qy, dx ++ dy).

Definition normalize (this : Vector2) : Vector2 := fst (normalize_run this).

Definition clone (this : Vector2) : Vector2 := new (x this) (y this).

Definition distance (v1 v2 : Vector2) : number :=
  let dx := x v2 - x v1 in
  let dy := y v2 - y v1 in
  Math_sqrt (dx * dx + dy * dy).

Definition zero : Vector2 := new 0 0.

(** The lengths for which the squares, their sum, the square root and the
    two quotients of [normalize] stay far from the limits of binary64. *)
Definition in_range (this : Vector2) : Prop :=
  / 10 ^ 150 <= length this <= 10 ^ 150.

End Vector2.

(** ** src/utils/Vector2.ts on binary64

    [length] and [normalize] as the program computes them: every operation
    is the IEEE 754 binary64 one, [===] is the IEEE equality. *)

Module Binary64.
Import PrimFloat.
#[local] Set Warnings "-inexact-float".
#[local] Open Scope float_scope.

Record Vector2 := new { x : float; y : float }.

Definition length (this : Vector2) : float :=
  sqrt (x this * x this + y this * y this).

(** A division [a / b] together with the record of its divisor. *)
Definition divide (a b : float) : float * list float := (a / b, [b]).

Definition normalize_run (this : Vector2) : Vector2 * list float :=
  let len := length this in
  if eqb len 0 then (new 0 0, [])
  else
    let '(qx, dx) := divide (x this) len in
    let '(qy, dy) := divide (y this) len in
    (new qx qy, dx ++ dy).

Definition normalize (this : Vector2) : Vector2 := fst (normalize_run this).

Definition zero : Vector2 := new 0 0.

(** [+0] and [-0] *)
Definition signed_zero (negative : bool) : float :=
  if negative then opp 0 else 0.

(** Both components are [+0] or [-0]. *)
Definition is_zero (this : Vector2) : bool :=
  eqb (x this) 0 && eqb (y this) 0.

(** [l] differs from 1 by at most 1e-9. *)
Definition near_one (l : float) : bool := leb (abs (l - 1)) 1e-9.

(** Vectors at the ends of the range. *)
Definition tiny : Vector2 := new 1e-200 0.
Definition small : Vector2 := new 3e-162 4e-162.
Definition huge : Vector2 := new 1e200 1e200.

(** Vectors whose length is between 1e-150 and 1e150. *)
Definition ordinary : list Vector2 :=
  [new 3 4; new (-27) 21; new 1 1; new 0.1 (-0.7); new 1 1e-200;
   new 1e-150 0; new 1e-151 1e-150; new 0 1e150; new 7e149 (-7e149);
   new 640 360; new 5e-324 1e-100].

End Binary64.

(** ** Vector2 objects in the heap

    A [Vector2] of the source is an object with two public mutable fields.
    The store holds every object allocated so far; a reference is the
    position of its object.  [new Vector2(..)] allocates at the end, a field
    assignment overwrites in place. *)

Module Heap.
Import JS.

Definition ref := nat.
Definition store := list Vector2.Vector2.

(** Store-passing computations that fail on a dangling reference. *)
Definition M (A : Type) := store -> option (A * store).

Definition ret {A} (a : A) : M A := fun s => Some (a, s).

Definition bind {A B} (m : M A) (k : A -> M B) : M B :=
  fun s => match m s with
           | Some (a, s') => k a s'
           | None => None
           end.

Notation "v <- m ;; k" := (bind m (fun v => k))
  (at level 61, m at next level, right associativity).

Definition load (r : ref) : M Vector2.Vector2 :=
  fun s => match nth_error s r with
           | Some v => Some (v, s)
           | None => None
           end.

Definition alloc (v : Vector2.Vector2) : M ref :=
  fun s => Some (List.length s, s ++ [v]).

Fixpoint overwrite (s : store) (r : ref) (v : Vector2.Vector2) : store :=
  match s, r with
  | [], _ => []
  | _ :: tl, O => v :: tl
  | hd :: tl, S r' => hd :: overwrite tl r' v
  end.

(** [r.x = v] and [r.y = v] *)
Definition set_x (r : ref) (v : number) : M unit :=
  fun s => match nth_error s r with
           | Some o => Some (tt, overwrite s r (Vector2.new v (Vector2.y o)))
           | None => None
           end.

Definition set_y (r : ref) (v : number) : M unit :=
  fun s => match nth_error s r with
           | Some o => Some (tt, overwrite s r (Vector2.new (Vector2.x o) v))
           | None => None
           end.

(** The methods of the class on objects: each reads the fields of its
    receiver and arguments and returns [new Vector2(..)]. *)
Definition add (this other : ref) : M ref :=
  a <- load this ;; b <- load other ;; alloc (Vector2.add a b).

Definition subtract (this other : ref) : M ref :=
  a <- load this ;; b <- load other ;; alloc (Vector2.subtract a b).

Definition multiply (this : ref) (scalar : number) : M ref :=
  a <- load this ;; alloc (Vector2.multiply a scalar).

Definition normalize (this : ref) : M ref :=
  a <- load this ;; alloc (Vector2.normalize a).

Definition clone (this : ref) : M ref :=
  a <- load this ;; alloc (Vector2.clone a).

(** A call of one of the value-returning methods, with its arguments. *)
Inductive method :=
| Add (other : ref)
| Subtract (other : ref)
| Multiply (scalar : number)
| Normalize
| Clone.

Definition call (this : ref) (m : method) : M ref :=
  match m with
  | Add other => add this other
  | Subtract other => subtract this other
  | Multiply scalar => multiply this scalar
  | Normalize => normalize this
  | Clone => clone this
  end.

(** The references a call passes: the receiver and the vector arguments. *)
Definition operands (this : ref) (m : method) : list ref :=
  match m with
  | Add other | Subtract other => [this; other]
  | Multiply _ | Normalize | Clone => [this]
  end.

(** What the call computes from the fields of its operands. *)
Definition value_of (a : Vector2.Vector2) (m : method) (s : store)
  : option Vector2.Vector2 :=
  match m with
  | Add other => option_map (Vector2.add a) (nth_error s other)
  | Subtract other => option_map (Vector2.subtract a) (nth_error s other)
  | Multiply scalar => Some (Vector2.multiply a scalar)
  | Normalize => Some (Vector2.normalize a)
  | Clone => Some (Vector2.clone a)
  end.

End Heap.

(** ** The browser: console, canvas context, animation frames *)

Module Browser.
Import JS.

Inductive console_method := console_log | console_warn | console_error.

(** A handle on the 2D drawing context of a canvas. *)
Inductive CanvasRenderingContext2D := Context2D (id : nat).

(** Calls and assignments on the drawing context. *)
Inductive ctx_op :=
| fillStyle (color : string)
| fillRect (x y w h : number)
| beginPath
| arc (x y radius startAngle endAngle : number)
| fill
| font (fontSize : number) (fontFamily : string)
| textAlign (align : string)
| fillText (text : string) (x y : number)
| strokeStyle (color : string)
| lineWidth (w : number)
| strokeRect (x y w h : number).

Record HTMLCanvasElement := {
  context2d : option CanvasRenderingContext2D;
  width : number;
  height : number
}.

(** [canvas.getContext('2d')]: the context, or [null]. *)
Definition getContext (canvas : HTMLCanvasElement)
  : option CanvasRenderingContext2D := context2d canvas.

(** Everything outside the game object that the sources read or write. *)
Record World := {
  Logger_enabled : bool;
  console : list (console_method * string);
  canvas_ops : list ctx_op;
  (** callbacks registered with [requestAnimationFrame], not yet invoked *)
  animationFrames : nat;
  (** event types registered with [window.addEventListener] *)
  listeners : list string
}.

Definition print (m : console_method) (s : string) (w : World) : World :=
  {| Logger_enabled := Logger_enabled w;
     console := console w ++ [(m, s)];
     canvas_ops := canvas_ops w;
     animationFrames := animationFrames w;
     listeners := listeners w |}.

Definition draw (ops : list ctx_op) (w : World) : World :=
  {| Logger_enabled := Logger_enabled w;
     console := console w;
     canvas_ops := canvas_ops w ++ ops;
     animationFrames := animationFrames w;
     listeners := listeners w |}.

Definition requestAnimationFrame (w : World) : World :=
  {| Logger_enabled := Logger_enabled w;
     console := console w;
     canvas_ops := canvas_ops w;
     animationFrames := S (animationFrames w);
     listeners := listeners w |}.

(** The browser takes one registered callback to invoke it. *)
Definition takeAnimationFrame (w : World) : World :=
  {| Logger_enabled := Logger_enabled w;
     console := console w;
     canvas_ops := canvas_ops w;
     animationFrames := pred (animationFrames w);
     listeners := listeners w |}.

Definition addEventListener (type : string) (w : World) : World :=
  {| Logger_enabled := Logger_enabled w;
     console := console w;
     canvas_ops := canvas_ops w;
     animationFrames := animationFrames w;
     listeners := listeners w ++ [type] |}.

(** A page that has just loaded. *)
Definition initial : World :=
  {| Logger_enabled := true;
     console := [];
     canvas_ops := [];
     animationFrames := O;
     listeners := [] |}.

End Browser.

(** ** src/utils/Logger.ts *)

Module Logger.
Import Browser.

Definition info (message : string) (w : World) : World :=
  if negb (Logger_enabled w) then w
  else print console_log ("[INFO] " ++ message) w.

Definition warn (message : string) (w : World) : World :=
  if negb (Logger_enabled w) then w
  else print console_warn ("[WARN] " ++ message) w.

Definition error (message : string) (w : World) : World :=
  if negb (Logger_enabled w) then w
  else print console_error ("[ERROR] " ++ message) w.

Definition setEnabled (enabled : bool) (w : World) : World :=
  {| Logger_enabled := enabled;
     console := console w;
     canvas_ops := canvas_ops w;
     animationFrames := animationFrames w;
     listeners := listeners w |}.

End Logger.

(** ** src/config/GameConfig.ts and src/config/EnemyConfig.ts *)

Module GameConfig.
Definition CANVAS_WIDTH : JS.number := 1280.
Definition CANVAS_HEIGHT : JS.number := 720.
Definition TARGET_FPS : JS.number := 60.
Definition GAME_DURATION : JS.number := 600.
Definition DEBUG_MODE : bool := false.
End GameConfig.

Module EnemyConfig.
Module BASIC_ENEMY.
Definition HP : JS.number := 20.
Definition SPEED : JS.number := 80.
Definition DAMAGE : JS.number := 10.
Definition EXPERIENCE_VALUE : JS.number := 1.
Definition RADIUS : JS.number := 15.
Definition COLOR : string := "#ff0000".
End BASIC_ENEMY.
Definition INITIAL_SPAWN_INTERVAL : JS.number := 2.
Definition MIN_SPAWN_INTERVAL : JS.number := 5 / 10.
Definition SPAWN_INTERVAL_DECREASE_RATE : JS.number := 95 / 100.
Definition MAX_ENEMIES : nat := 100.
Definition SPAWN_DISTANCE : JS.number := 50.
End EnemyConfig.

(** ** core/Renderer.ts *)

Module Renderer.
Import JS Browser.

Record Renderer := {
  ctx : CanvasRenderingContext2D;
  width : number;
  height : number
}.

Definition new (canvas : HTMLCanvasElement) : result Renderer :=
  match getContext canvas with
  | None => Throw {| message := "Failed to get 2D context from canvas" |}
  | Some c =>
      Return {| ctx := c;
                width := Browser.width canvas;
                height := Browser.height canvas |}
  end.

Definition clear (this : Renderer) (color : string) : World -> World :=
  draw [fillStyle color; fillRect 0 0 (width this) (height this)].

Definition drawCircle (this : Renderer) (position : Vector2.Vector2)
  (radius : number) (color : string) : World -> World :=
  draw [fillStyle color; beginPath;
        arc (Vector2.x position) (Vector2.y position) radius 0 (Math_PI * 2);
        fill].

Definition drawText (this : Renderer) (text : string)
  (position : Vector2.Vector2) (color : string) (fontSize : number)
  (fontFamily : string) (align : string) : World -> World :=
  draw [fillStyle color; font fontSize fontFamily; textAlign align;
        fillText text (Vector2.x position) (Vector2.y position)].

Definition getWidth (this : Renderer) : number := width this.
Definition getHeight (this : Renderer) : number := height this.

Definition drawRect (this : Renderer) (position : Vector2.Vector2)
  (width height : number) (color : string) : World -> World :=
  draw [fillStyle color;
        fillRect (Vector2.x position) (Vector2.y position) width height].

Definition drawHealthBar (this : Renderer) (position : Vector2.Vector2)
  (width height currentHp maxHp : number)
  (backgroundColor fillColor : string) (w : World) : World :=
  let w := drawRect this position width height backgroundColor w in
  let hpWidth := (currentHp / maxHp) * width in
  let w := drawRect this position hpWidth height fillColor w in
  draw [strokeStyle "#ffffff"; lineWidth 1;
        strokeRect (Vector2.x position) (Vector2.y position) width height] w.

End Renderer.

(** ** core/Input.ts *)

Module Input.
Import JS Browser.

(** [String.prototype.toLowerCase], on the ASCII letters. *)
Definition lower (c : ascii) : ascii :=
  let n := nat_of_ascii c in
  if ((65 <=? n) && (n <=? 90))%nat then ascii_of_nat (n + 32) else c.

Fixpoint toLowerCase (s : string) : string :=
  match s with
  | EmptyString => EmptyString
  | String c s' => String (lower c) (toLowerCase s')
  end.

(** [Set<string>]: [has], [add], [delete]. *)
Definition has (keys : list string) (k : string) : bool :=
  existsb (String.eqb k) keys.

Definition set_add (keys : list string) (k : string) : list string :=
  if has keys k then keys else keys ++ [k].

Definition set_delete (keys : list string) (k : string) : list string :=
  filter (fun k' => negb (String.eqb k k')) keys.

Record Input := {
  keys : list string;
  mousePosition : Vector2.Vector2;
  mousePressed : bool
}.

Definition setupEventListeners (w : World) : World :=
  addEventListener "blur"
    (addEventListener "mouseup"
      (addEventListener "mousedown"
        (addEventListener "mousemove"
          (addEventListener "keyup"
            (addEventListener "keydown" w))))).

Definition new (w : World) : Input * World :=
  ({| keys := []; mousePosition := Vector2.new 0 0; mousePressed := false |},
   setupEventListeners w).

(** The keyboard listeners. *)
Definition keydown (key : string) (this : Input) : Input :=
  {| keys := set_add (keys this) (toLowerCase key);
     mousePosition := mousePosition this;
     mousePressed := mousePressed this |}.

Definition keyup (key : string) (this : Input) : Input :=
  {| keys := set_delete (keys this) (toLowerCase key);
     mousePosition := mousePosition this;
     mousePressed := mousePressed this |}.

Definition blur (this : Input) : Input :=
  {| keys := [];
     mousePosition := mousePosition this;
     mousePressed := mousePressed this |}.

Definition isKeyPressed (this : Input) (key : string) : bool :=
  has (keys this) (toLowerCase key).

Definition getMovementDirection (this : Input) : Vector2.Vector2 :=
  let x := 0 in
  let y := 0 in
  let y := if isKeyPressed this "w" || isKeyPressed this "arrowup"
           then y - 1 else y in
  let y := if isKeyPressed this "s" || isKeyPressed this "arrowdown"
           then y + 1 else y in
  let x := if isKeyPressed this "a" || isKeyPressed this "arrowleft"
           then x - 1 else x in
  let x := if isKeyPressed this "d" || isKeyPressed this "arrowright"
           then x + 1 else x in
  let direction := Vector2.new x y in
  if gt (Vector2.length direction) 0 then Vector2.normalize direction
  else direction.

(** The mouse listeners. *)
Definition mousemove (clientX clientY : number) (this : Input) : Input :=
  {| keys := keys this;
     mousePosition := Vector2.new clientX clientY;
     mousePressed := mousePressed this |}.

Definition mousedown (this : Input) : Input :=
  {| keys := keys this;
     mousePosition := mousePosition this;
     mousePressed := true |}.

Definition mouseup (this : Input) : Input :=
  {| keys := keys this;
     mousePosition := mousePosition this;
     mousePressed := false |}.

Definition getMousePosition (this : Input) : Vector2.Vector2 :=
  Vector2.clone (mousePosition this).

Definition isMousePressed (this : Input) : bool := mousePressed this.

Definition clear (this : Input) : Input :=
  {| keys := [];
     mousePosition := mousePosition this;
     mousePressed := false |}.

(** A key name written with ASCII characters only ("w", "W", "ArrowUp"):
    on these [toLowerCase] above is [String.prototype.toLowerCase]. *)
Definition ascii_only (key : string) : bool :=
  forallb (fun c => (nat_of_ascii c <? 128)%nat) (list_ascii_of_string key).

(** The events the listeners are registered for, and their dispatch. *)
Inductive event :=
| KeyDown (key : string)
| KeyUp (key : string)
| MouseMove (clientX clientY : number)
| MouseDown
| MouseUp
| Blur.

Definition dispatch (e : event) (this : Input) : Input :=
  match e with
  | KeyDown key => keydown key this
  | KeyUp key => keyup key this
  | MouseMove clientX clientY => mousemove clientX clientY this
  | MouseDown => mousedown this
  | MouseUp => mouseup this
  | Blur => blur this
  end.

Definition is_keyboard (e : event) : bool :=
  match e with
  | KeyDown _ | KeyUp _ | Blur => true
  | MouseMove _ _ | MouseDown | MouseUp => false
  end.

End Input.

(** ** core/Game.ts

    [performance.now()] is an input: every function that reads the clock
    takes the value of each reading as an argument, in the order the
    readings happen. *)

Module Game.
Import JS Browser.

Record Game := {
  renderer : Renderer.Renderer;
  input : Input.Input;
  running : bool;
  lastTime : number;
  fps : nat;
  frameCount : nat;
  fpsUpdateTime : number;
  playerPosition : Vector2.Vector2;
  playerSpeed : number
}.

Definition set_running (b : bool) (g : Game) : Game :=
  {| renderer := renderer g; input := input g; running := b;
     lastTime := lastTime g; fps := fps g; frameCount := frameCount g;
     fpsUpdateTime := fpsUpdateTime g; playerPosition := playerPosition g;
     playerSpeed := playerSpeed g |}.

Definition set_lastTime (t : number) (g : Game) : Game :=
  {| renderer := renderer g; input := input g; running := running g;
     lastTime := t; fps := fps g; frameCount := frameCount g;
     fpsUpdateTime := fpsUpdateTime g; playerPosition := playerPosition g;
     playerSpeed := playerSpeed g |}.

Definition set_fps (f c : nat) (u : number) (g : Game) : Game :=
  {| renderer := renderer g; input := input g; running := running g;
     lastTime := lastTime g; fps := f; frameCount := c;
     fpsUpdateTime := u; playerPosition := playerPosition g;
     playerSpeed := playerSpeed g |}.

Definition set_playerPosition (p : Vector2.Vector2) (g : Game) : Game :=
  {| renderer := renderer g; input := input g; running := running g;
     lastTime := lastTime g; fps := fps g; frameCount := frameCount g;
     fpsUpdateTime := fpsUpdateTime g; playerPosition := p;
     playerSpeed := playerSpeed g |}.

(** The listeners of [Input] act on the input object the game owns. *)
Definition set_input (i : Input.Input) (g : Game) : Game :=
  {| renderer := renderer g; input := i; running := running g;
     lastTime := lastTime g; fps := fps g; frameCount := frameCount g;
     fpsUpdateTime := fpsUpdateTime g; playerPosition := playerPosition g;
     playerSpeed := playerSpeed g |}.

(** The position the constructor gives the player. *)
Definition initialPosition (r : Renderer.Renderer) : Vector2.Vector2 :=
  Vector2.new (Renderer.getWidth r / 2) (Renderer.getHeight r / 2).

Definition new (canvas : HTMLCanvasElement) (w : World)
  : result Game * World :=
  match Renderer.new canvas with
  | Throw e => (Throw e, w)
  | Return r =>
      let '(i, w) := Input.new w in
      (Return {| renderer := r; input := i; running := false;
                 lastTime := 0; fps := O; frameCount := O;
                 fpsUpdateTime := 0;
                 playerPosition := initialPosition r;
                 playerSpeed := 200 |},
       Logger.info "Game initialized" w)
  end.

Definition updateFPS (deltaTime : number) (g : Game) : Game :=
  let frameCount := S (frameCount g) in
  let fpsUpdateTime := fpsUpdateTime g + deltaTime in
  if ge fpsUpdateTime 1 then set_fps frameCount O 0 g
  else set_fps (fps g) frameCount fpsUpdateTime g.

Definition update (deltaTime : number) (g : Game) : Game :=
  let direction := Input.getMovementDirection (input g) in
  let p := Vector2.add (playerPosition g)
             (Vector2.multiply direction (playerSpeed g * deltaTime)) in
  let p := Vector2.new
             (Math_max 20
                (Math_min (Renderer.getWidth (renderer g) - 20)
                          (Vector2.x p)))
             (Vector2.y p) in
  let p := Vector2.new
             (Vector2.x p)
             (Math_max 20
                (Math_min (Renderer.getHeight (renderer g) - 20)
                          (Vector2.y p))) in
  set_playerPosition p g.

Definition fpsText (n : nat) : string :=
  "FPS: " ++ NilZero.string_of_uint (Nat.to_uint n).

Definition render (g : Game) (w : World) : World :=
  let w := Renderer.clear (renderer g) "#1a1a1a" w in
  let w := Renderer.drawCircle (renderer g) (playerPosition g) 20
             "#00ff00" w in
  let w := if GameConfig.DEBUG_MODE
           then Renderer.drawText (renderer g) (fpsText (fps g))
                  (Vector2.new 10 20) "#ffffff" 16 "Arial" "left" w
           else w in
  Renderer.drawText (renderer g) "Use WASD or Arrow Keys to move"
    (Vector2.new (Renderer.getWidth (renderer g) / 2) 30)
    "#ffffff" 16 "Arial" "center" w.

(** [const deltaTime = (currentTime - this.lastTime) / 1000] *)
Definition deltaTime (currentTime : number) (g : Game) : number :=
  (currentTime - lastTime g) / 1000.

Definition gameLoop (currentTime : number) (g : Game) (w : World)
  : Game * World :=
  if negb (running g) then (g, w)
  else
    let dt := deltaTime currentTime g in
    let g := set_lastTime currentTime g in
    let g := updateFPS dt g in
    let g := update dt g in
    let w := render g w in
    (g, requestAnimationFrame w).

(** [now0] is the clock read by [start], [now1] the one read by the
    [gameLoop] it calls. *)
Definition start (now0 now1 : number) (g : Game) (w : World)
  : Game * World :=
  if running g then (g, Logger.warn "Game is already running" w)
  else
    let g := set_running true g in
    let g := set_lastTime now0 g in
    let '(g, w) := gameLoop now1 g w in
    (g, Logger.info "Game started" w).

Definition stop (g : Game) (w : World) : Game * World :=
  (set_running false g, Logger.info "Game stopped" w).

(** A position at least 20 away from every edge of the drawing surface. *)
Definition on_screen (r : Renderer.Renderer) (p : Vector2.Vector2) : Prop :=
  20 <= Vector2.x p <= Renderer.getWidth r - 20 /\
  20 <= Vector2.y p <= Renderer.getHeight r - 20.

End Game.

(** ** The position update of [Game.update] on objects

    [position] is the object [this.playerPosition] refers to when [update]
    is entered, [direction] the one [getMovementDirection] returned; the
    result is the reference [update] leaves in [this.playerPosition]. *)

Module GameObjects.
Import JS Heap.

Definition update_position (position direction : ref) (g : Game.Game)
  (deltaTime : number) : M ref :=
  d <- multiply direction (Game.playerSpeed g * deltaTime) ;;
  p <- add position d ;;
  o <- load p ;;
  _ <- set_x p (Math_max 20
                  (Math_min (Renderer.getWidth (Game.renderer g) - 20)
                            (Vector2.x o))) ;;
  o <- load p ;;
  _ <- set_y p (Math_max 20
                  (Math_min (Renderer.getHeight (Game.renderer g) - 20)
                            (Vector2.y o))) ;;
  ret p.

End GameObjects.

(** ** The tick source and the entry point *)

Module Page.
Import JS Browser.

(** The browser invokes one callback registered with
    [requestAnimationFrame], if there is one, when the clock reads
    [currentTime]. *)
Definition animationFrame (currentTime : number) (gw : Game.Game * World)
  : Game.Game * World :=
  let '(g, w) := gw in
  match animationFrames w with
  | O => (g, w)
  | S _ => Game.gameLoop currentTime g (takeAnimationFrame w)
  end.

Definition animationFrames_at (times : list number)
  (gw : Game.Game * World) : Game.Game * World :=
  fold_left (fun gw t => animationFrame t gw) times gw.

(** src/main.ts; [element] is [document.getElementById('game-canvas')]. *)
Definition main (element : option HTMLCanvasElement) (now0 now1 : number)
  (w : World) : result Game.Game * World :=
  let w := Logger.info "Elemental Survivors - Starting..." w in
  match element with
  | None =>
      (Throw {| message := "Canvas element not found" |},
       Logger.error "Canvas element not found" w)
  | Some canvas =>
      let canvas := {| context2d := context2d canvas;
                       width := GameConfig.CANVAS_WIDTH;
                       height := GameConfig.CANVAS_HEIGHT |} in
      match Game.new canvas w with
      | (Throw e, w) => (Throw e, w)
      | (Return game, w) =>
          let '(game, w) := Game.start now0 now1 game w in
          (Return game,
           Logger.info "Elemental Survivors - Phase 1: Core Engine Running" w)
      end
  end.

End Page.

(** ** SpawnSystem, as the design document of the prototype gives it *)

Module SpawnSystem.
Import JS.

(** Modelled from the spec: the class [BasicEnemy] is not among the
    sources; an enemy has a position and is active from its creation, with
    the statistics of [EnemyConfig.BASIC_ENEMY]. *)
Record BasicEnemy := {
  position : Vector2.Vector2;
  active : bool;
  hp : number
}.

Definition new_BasicEnemy (p : Vector2.Vector2) : BasicEnemy :=
  {| position := p; active := true; hp := EnemyConfig.BASIC_ENEMY.HP |}.

(** Modelled from the spec: the entity manager is not among the sources;
    it owns the entities, [addEntity] adds one, and the count of a kind
    is the number of its active entities. *)
Definition EntityManager := list BasicEnemy.

Definition addEntity (e : BasicEnemy) (m : EntityManager) : EntityManager :=
  m ++ [e].

Definition activeEnemies (m : EntityManager) : nat :=
  List.length (filter active m).

Record SpawnSystem := {
  spawnTimer : number;
  gameTime : number
}.

Definition new : SpawnSystem := {| spawnTimer := 0; gameTime := 0 |}.

Definition getSpawnInterval (this : SpawnSystem) : number :=
  let start := 2 in
  let min := 3 / 10 in
  let progress := Math_min (gameTime this / 600) 1 in
  start - (start - min) * progress.

(** [random] is the value of [Math.random()]. *)
Definition spawnEnemy (random : number) (playerPos : Vector2.Vector2)
  (m : EntityManager) : EntityManager :=
  let angle := random * Math_PI * 2 in
  let distance := 800 in
  let x := Vector2.x playerPos + Math_cos angle * distance in
  let y := Vector2.y playerPos + Math_sin angle * distance in
  let enemy := new_BasicEnemy (Vector2.new x y) in
  addEntity enemy m.

(** [update(deltaTime, player)]; [playerPos] is [player.position] and
    [random] the value [Math.random()] returns if it is called. *)
Definition update (deltaTime : number) (playerPos : Vector2.Vector2)
  (random : number) (st : SpawnSystem * EntityManager)
  : SpawnSystem * EntityManager :=
  let '(this, m) := st in
  let this := {| spawnTimer := spawnTimer this + deltaTime;
                 gameTime := gameTime this + deltaTime |} in
  let spawnInterval := getSpawnInterval this in
  if ge (spawnTimer this) spawnInterval
  then ({| spawnTimer := 0; gameTime := gameTime this |},
        spawnEnemy random playerPos m)
  else (this, m).

(** A sequence of ticks, each with its [deltaTime], player position and
    random value. *)
Definition updates (ticks : list (number * Vector2.Vector2 * number))
  (st : SpawnSystem * EntityManager) : SpawnSystem * EntityManager :=
  fold_left (fun st '(dt, p, r) => update dt p r st) ticks st.


End SpawnSystem.

(** ** utils/MathUtils.ts

    [random] stands for the value of the call of [Math.random()]. *)

Module MathUtils.
Import JS.

Definition clamp (value min max : number) : number :=
  Math_min (Math_max value min) max.

Definition lerp (start end_ t : number) : number :=
  start + (end_ - start) * t.

Definition randomRange (random min max : number) : number :=
  random * (max - min) + min.

Definition randomInt (random min max : number) : number :=
  Math_floor (random * (max - min + 1)) + min.

Definition degToRad (degrees : number) : number :=
  (degrees * Math_PI) / 180.

Definition radToDeg (radians : number) : number :=
  (radians * 180) / Math_PI.

End MathUtils.

(** ** CollisionSystem and LevelSystem, as the design document gives them *)

Module CollisionSystem.
Import JS.

Definition checkCircleCollision (pos1 : Vector2.Vector2) (radius1 : number)
  (pos2 : Vector2.Vector2) (radius2 : number) : bool :=
  let distance := Vector2.distance pos1 pos2 in
  lt distance (radius1 + radius2).

(** The entities are the enemies of the entity manager. *)
Definition getEntitiesInRange (position : Vector2.Vector2) (radius : number)
  (entities : list SpawnSystem.BasicEnemy) : list SpawnSystem.BasicEnemy :=
  filter (fun entity =>
            let distance :=
              Vector2.distance position (SpawnSystem.position entity) in
            le distance radius)
         entities.

End CollisionSystem.

Module LevelSystem.
Import JS.

(** The two fields of the player ([IPlayer] of types/entities.ts) the level
    system uses; the level is a count. *)
Record Player := {
  experience : number;
  level : nat
}.

Definition getExperienceToNext (player : Player) : number :=
  10 + INR (level player) * 5.

(** [showUpgradeChoices] has an empty body. *)
Definition levelUp (player : Player) : Player :=
  {| experience := experience player - getExperienceToNext player;
     level := S (level player) |}.

(** The [while] loop of [addExperience]; [None] when [fuel] iterations do
    not reach its exit. *)
Fixpoint levelUps (fuel : nat) (player : Player) : option Player :=
  if ge (experience player) (getExperienceToNext player)
  then match fuel with
       | O => None
       | S fuel' => levelUps fuel' (levelUp player)
       end
  else Some player.

Definition addExperience (fuel : nat) (amount : number) (player : Player)
  : option Player :=
  levelUps fuel {| experience := experience player + amount;
                   level := level player |}.

(** The experience [n] level-ups consume, starting at level [l]. *)
Fixpoint consumed (l n : nat) : number :=
  match n with
  | O => 0
  | S n' => (10 + INR l * 5) + consumed (S l) n'
  end.

End LevelSystem.

(** ** Concrete objects on which the properties are exercised *)

Module Sample.
Import JS Browser.

Definition two_vectors : Heap.store := [Vector2.new 1 2; Vector2.new 3 4].

Definition canvas : HTMLCanvasElement :=
  {| context2d := Some (Context2D 0);
     width := GameConfig.CANVAS_WIDTH;
     height := GameConfig.CANVAS_HEIGHT |}.

Definition canvas_without_context : HTMLCanvasElement :=
  {| context2d := None;
     width := GameConfig.CANVAS_WIDTH;
     height := GameConfig.CANVAS_HEIGHT |}.

(** A running game at the centre of a 1280 x 720 canvas, the key D held,
    whose previous tick was at time 0. *)
Definition game : Game.Game :=
  {| Game.renderer := {| Renderer.ctx := Context2D 0;
                         Renderer.width := 1280;
                         Renderer.height := 720 |};
     Game.input := {| Input.keys := ["d"%string];
                      Input.mousePosition := Vector2.new 0 0;
                      Input.mousePressed := false |};
     Game.running := true;
     Game.lastTime := 0;
     Game.fps := O;
     Game.frameCount := O;
     Game.fpsUpdateTime := 0;
     Game.playerPosition := Vector2.new 640 360;
     Game.playerSpeed := 200 |}.

(** W and D held together. *)
Definition input_w_d : Input.Input :=
  Input.keydown "d" (Input.keydown "W" (fst (Input.new Browser.initial))).

End Sample.

(** * Properties *)

(** ** Comparisons *)

Lemma strict_eq_true (a b : R) : JS.strict_eq a b = true <-> a = b.
Proof.
  unfold JS.strict_eq. destruct (Req_dec_T a b); split; congruence.
Qed.

Lemma strict_eq_false (a b : R) : JS.strict_eq a b = false <-> a <> b.
Proof.
  unfold JS.strict_eq. destruct (Req_dec_T a b); split; congruence.
Qed.

Lemma gt_true (a b : R) : JS.gt a b = true <-> b < a.
Proof.
  unfold JS.gt. destruct (Rlt_dec b a); split; intros; try easy.
Qed.

Lemma ge_true (a b : R) : JS.ge a b = true <-> b <= a.
Proof.
  unfold JS.ge. destruct (Rle_dec b a); split; intros; try easy.
Qed.

Lemma ge_false (a b : R) : JS.ge a b = false <-> a < b.
Proof.
  unfold JS.ge. destruct (Rle_dec b a); split; intros; try easy; lra.
Qed.

(** ** Vector2 *)

Section Vector2Facts.
Import Vector2.

Lemma sum_sqr_nonneg (a b : R) : 0 <= a * a + b * b.
Proof. nra. Qed.

Lemma length_nonneg (v : Vector2) : 0 <= length v.
Proof. apply sqrt_pos. Qed.

Lemma length_zero_iff (v : Vector2) : length v = 0 <-> v = zero.
Proof.
  destruct v as [a b]. unfold length, zero, JS.Math_sqrt. simpl. split.
  - intros H. apply sqrt_eq_0 in H; [|apply sum_sqr_nonneg].
    assert (a = 0) by nra. assert (b = 0) by nra. subst. reflexivity.
  - intros H. injection H as -> ->.
    replace (0 * 0 + 0 * 0) with 0 by ring. apply sqrt_0.
Qed.

Lemma length_sqr (v : Vector2) : length v * length v = x v * x v + y v * y v.
Proof. unfold length, JS.Math_sqrt. apply sqrt_sqrt, sum_sqr_nonneg. Qed.

Lemma normalize_zero_branch (v : Vector2) :
  length v = 0 -> normalize_run v = (new 0 0, []).
Proof.
  intros H. unfold normalize_run.
  apply strict_eq_true in H. rewrite H. reflexivity.
Qed.

Lemma normalize_div_branch (v : Vector2) :
  length v <> 0 ->
  normalize_run v = (new (x v / length v) (y v / length v), [length v; length v]).
Proof.
  intros H. unfold normalize_run.
  apply strict_eq_false in H. rewrite H. reflexivity.
Qed.

Lemma normalize_length_one (v : Vector2) :
  v <> zero -> length (normalize v) = 1.
Proof.
  intros Hv.
  assert (Hl : length v <> 0) by (rewrite length_zero_iff; exact Hv).
  unfold normalize. rewrite (normalize_div_branch v Hl). simpl.
  unfold length at 1. unfold JS.Math_sqrt. simpl.
  replace (x v / length v * (x v / length v) + y v / length v * (y v / length v))
    with ((x v * x v + y v * y v) / (length v * length v))
    by (field; exact Hl).
  rewrite <- length_sqr.
  replace (length v * length v / (length v * length v)) with 1
    by (field; exact Hl).
  apply sqrt_1.
Qed.

End Vector2Facts.

Section RangeFacts.
Import Vector2.

Lemma range_bounds : 0 < / 10 ^ 150 <= 1 /\ 1 <= 10 ^ 150.
Proof.
  assert (H : 1 <= 10 ^ 150) by (apply pow_R1_Rle; lra).
  split; [split|exact H].
  - apply Rinv_0_lt_compat. lra.
  - rewrite <- Rinv_1. apply Rinv_le_contravar; lra.
Qed.

Lemma in_range_nonzero (v : Vector2) : in_range v -> v <> zero.
Proof.
  intros [H _] E. apply length_zero_iff in E.
  destruct range_bounds as [[Hpos _] _]. lra.
Qed.

End RangeFacts.

Section NormalizeOnBinary64.
Import PrimFloat.

(** C2, as the code has it. For every vector whose length lies between
    1e-150 and 1e150 the result of [normalize] has length 1 (exactly so in
    exact arithmetic, which the binary64 program follows up to rounding on
    that range).  The zero vector, with either sign of its zeros, is
    normalized to (0, 0).  In binary64 as in exact arithmetic [normalize]
    divides only by a length that is not zero: whenever [length] evaluates
    to 0, also for a nonzero vector whose squares underflow, it returns
    (0, 0) and executes no division. *)
Theorem C2_normalize_unit_in_range
  (v : Vector2.Vector2) (b : Binary64.Vector2) (sx sy : bool) :
  Vector2.in_range v ->
  Vector2.length (Vector2.normalize v) = 1 /\
  Vector2.normalize Vector2.zero = Vector2.new 0 0 /\
  Forall (fun d => d <> 0) (snd (Vector2.normalize_run v)) /\
  Binary64.normalize
    (Binary64.new (Binary64.signed_zero sx) (Binary64.signed_zero sy))
    = Binary64.zero /\
  (PrimFloat.eqb (Binary64.length b) 0%float = true ->
     Binary64.normalize_run b = (Binary64.zero, [])) /\
  Forall (fun d => PrimFloat.eqb d 0%float = false)
    (snd (Binary64.normalize_run b)).
Proof.
  intros Hr. pose proof (in_range_nonzero v Hr) as Hv.
  assert (Hl : Vector2.length v <> 0)
    by (intros E; apply Hv; apply length_zero_iff; exact E).
  split; [apply normalize_length_one; exact Hv|].
  split.
  { unfold Vector2.normalize. rewrite normalize_zero_branch; [reflexivity|].
    apply length_zero_iff. reflexivity. }
  split.
  { rewrite (normalize_div_branch v Hl). simpl. repeat constructor; exact Hl. }
  split.
  { destruct sx, sy; vm_compute; reflexivity. }
  unfold Binary64.normalize_run, Binary64.divide.
  destruct (PrimFloat.eqb (Binary64.length b) 0%float) eqn:E; split.
  - intros _. reflexivity.
  - constructor.
  - intros H. discriminate H.
  - cbn [snd app]. repeat constructor; exact E.
Qed.

(** The vector (3, 4), of length 5; the vector (1e-200, 0) on binary64. *)
Lemma C2_witness :
  Vector2.in_range (Vector2.new 3 4) /\
  Vector2.length (Vector2.normalize (Vector2.new 3 4)) = 1 /\
  Binary64.normalize_run Binary64.tiny = (Binary64.zero, []).
Proof.
  assert (H5 : Vector2.length (Vector2.new 3 4) = 5).
  { unfold Vector2.length, JS.Math_sqrt. cbn [Vector2.x Vector2.y].
    replace (3 * 3 + 4 * 4) with (5 * 5) by lra. apply sqrt_square. lra. }
  assert (Hr : Vector2.in_range (Vector2.new 3 4)).
  { unfold Vector2.in_range. rewrite H5.
    destruct range_bounds as [[_ Hlo] Hhi]. lra. }
  split; [exact Hr|].
  destruct (C2_normalize_unit_in_range (Vector2.new 3 4) Binary64.tiny
              false false Hr) as [H1 [_ [_ [_ [H2 _]]]]].
  split; [exact H1|]. apply H2. vm_compute. reflexivity.
Defined.

(** C2, as the spec states it, fails on the numbers of the program: the
    vector (1e-200, 0) is not the zero vector, yet its squares underflow,
    [length] evaluates to 0 and [normalize] returns (0, 0), of length 0;
    (1e200, 1e200) overflows and is normalized to (0, 0) as well; and the
    result for (3e-162, 4e-162) has a length above 1.005. *)
Lemma C2_counterexample :
  Binary64.is_zero Binary64.tiny = false /\
  Binary64.normalize Binary64.tiny = Binary64.zero /\
  Binary64.near_one (Binary64.length (Binary64.normalize Binary64.tiny))
    = false /\
  Binary64.is_zero Binary64.huge = false /\
  Binary64.normalize Binary64.huge = Binary64.zero /\
  Binary64.is_zero Binary64.small = false /\
  Binary64.near_one (Binary64.length (Binary64.normalize Binary64.small))
    = false.
Proof. repeat split; vm_compute; reflexivity. Qed.

(** On binary64 the vectors of [Binary64.ordinary] are normalized to
    length 1 up to rounding. *)
Lemma binary64_ordinary_unit :
  forallb (fun v => Binary64.near_one (Binary64.length (Binary64.normalize v)))
    Binary64.ordinary = true.
Proof. vm_compute. reflexivity. Qed.

End NormalizeOnBinary64.


(** C5. For every keyboard state, the direction [getMovementDirection]
    returns is the zero vector when the held movement keys cancel on both
    axes (none held, or opposing ones held together), and has length 1 in
    every other case, the diagonals included. *)
Theorem C5_movement_direction_normalized (i : Input.Input) :
  let left := Input.isKeyPressed i "a" || Input.isKeyPressed i "arrowleft" in
  let right := Input.isKeyPressed i "d" || Input.isKeyPressed i "arrowright" in
  let up := Input.isKeyPressed i "w" || Input.isKeyPressed i "arrowup" in
  let down := Input.isKeyPressed i "s" || Input.isKeyPressed i "arrowdown" in
  let d := Input.getMovementDirection i in
  if Bool.eqb left right && Bool.eqb up down
  then d = Vector2.zero
  else Vector2.length d = 1.
Proof.
  cbv zeta. unfold Input.getMovementDirection.
  destruct (Input.isKeyPressed i "a" || Input.isKeyPressed i "arrowleft");
  destruct (Input.isKeyPressed i "d" || Input.isKeyPressed i "arrowright");
  destruct (Input.isKeyPressed i "w" || Input.isKeyPressed i "arrowup");
  destruct (Input.isKeyPressed i "s" || Input.isKeyPressed i "arrowdown");
  cbn [Bool.eqb andb];
  match goal with
  | |- (if JS.gt (Vector2.length ?v) 0 then _ else _) = Vector2.zero =>
      assert (Hz : v = Vector2.zero)
        by (unfold Vector2.zero; f_equal; ring);
      rewrite Hz;
      replace (JS.gt (Vector2.length Vector2.zero) 0) with false;
      [ reflexivity
      | symmetry; apply not_true_is_false; rewrite gt_true;
        replace (Vector2.length Vector2.zero) with 0
          by (symmetry; apply length_zero_iff; reflexivity);
        lra ]
  | |- Vector2.length (if JS.gt (Vector2.length ?v) 0 then _ else _) = 1 =>
      assert (Hnz : v <> Vector2.zero)
        by (unfold Vector2.zero; intros H; injection H; intros; lra);
      replace (JS.gt (Vector2.length v) 0) with true;
      [ apply normalize_length_one; exact Hnz
      | symmetry; apply gt_true;
        destruct (length_nonneg v) as [Hpos|Heq];
        [ exact Hpos
        | exfalso; apply Hnz; apply length_zero_iff; symmetry; exact Heq ] ]
  end.
Qed.

(** W and D held together: a diagonal of length 1. *)
Lemma C5_witness :
  Vector2.length (Input.getMovementDirection Sample.input_w_d) = 1.
Proof.
  exact (C5_movement_direction_normalized Sample.input_w_d).
Defined.

(** ** Vector2 objects *)

Section HeapFacts.
Import Heap.

Lemma alloc_fresh (v : Vector2.Vector2) (s : store) :
  exists r s',
    alloc v s = Some (r, s') /\
    nth_error s r = None /\
    nth_error s' r = Some v /\
    forall l o, nth_error s l = Some o -> nth_error s' l = Some o.
Proof.
  exists (List.length s), (s ++ [v]). repeat split.
  - apply nth_error_None. apply Nat.le_refl.
  - rewrite nth_error_app2 by apply Nat.le_refl.
    rewrite Nat.sub_diag. reflexivity.
  - intros l o H. rewrite nth_error_app1; [exact H|].
    apply nth_error_Some. congruence.
Qed.

Lemma load_valid (s : store) (r : ref) :
  (r < List.length s)%nat -> exists a, nth_error s r = Some a /\ load r s = Some (a, s).
Proof.
  intros H. apply nth_error_Some in H. unfold load.
  destruct (nth_error s r) as [a|]; [|congruence].
  exists a. split; reflexivity.
Qed.

End HeapFacts.

(** C8. Each of [add], [subtract], [multiply], [normalize] and [clone],
    called on objects that exist, returns a reference to a newly allocated
    [Vector2] holding the computed value, and every object that existed
    before the call, the receiver and the argument among them (also when
    they are the same object), keeps its [x] and [y]. *)
Theorem C8_operations_return_new_vector
  (s : Heap.store) (this : Heap.ref) (m : Heap.method) :
  Forall (fun r => (r < List.length s)%nat) (Heap.operands this m) ->
  exists r s' a v,
    Heap.call this m s = Some (r, s') /\
    nth_error s this = Some a /\
    Heap.value_of a m s = Some v /\
    nth_error s r = None /\
    nth_error s' r = Some v /\
    (forall l o, nth_error s l = Some o -> nth_error s' l = Some o) /\
    Forall (fun l => nth_error s' l = nth_error s l) (Heap.operands this m).
Proof.
  intros Hops.
  assert (Hthis : (this < List.length s)%nat).
  { destruct m; inversion Hops; assumption. }
  destruct (load_valid s this Hthis) as [a [Ha La]].
  assert (Hkeep : forall s',
    (forall l o, nth_error s l = Some o -> nth_error s' l = Some o) ->
    Forall (fun l => nth_error s' l = nth_error s l) (Heap.operands this m)).
  { intros s' Hfr. eapply Forall_impl; [|exact Hops].
    intros l Hl. cbv beta in Hl. apply nth_error_Some in Hl.
    destruct (nth_error s l) as [o|] eqn:E; [|congruence].
    apply Hfr. exact E. }
  destruct m as [other|other|scalar| |]; cbn [Heap.call Heap.value_of].
  - assert (Hother : (other < List.length s)%nat).
    { inversion Hops as [|? ? _ Hl]. inversion Hl. assumption. }
    destruct (load_valid s other Hother) as [b [Hb Lb]].
    destruct (alloc_fresh (Vector2.add a b) s) as [r [s' [Hal [Hf [Hv Hfr]]]]].
    exists r, s', a, (Vector2.add a b).
    unfold Heap.add, Heap.bind. rewrite La, Lb, Hb. cbn [option_map].
    repeat split; auto.
  - assert (Hother : (other < List.length s)%nat).
    { inversion Hops as [|? ? _ Hl]. inversion Hl. assumption. }
    destruct (load_valid s other Hother) as [b [Hb Lb]].
    destruct (alloc_fresh (Vector2.subtract a b) s)
      as [r [s' [Hal [Hf [Hv Hfr]]]]].
    exists r, s', a, (Vector2.subtract a b).
    unfold Heap.subtract, Heap.bind. rewrite La, Lb, Hb. cbn [option_map].
    repeat split; auto.
  - destruct (alloc_fresh (Vector2.multiply a scalar) s)
      as [r [s' [Hal [Hf [Hv Hfr]]]]].
    exists r, s', a, (Vector2.multiply a scalar).
    unfold Heap.multiply, Heap.bind. rewrite La.
    repeat split; auto.
  - destruct (alloc_fresh (Vector2.normalize a) s)
      as [r [s' [Hal [Hf [Hv Hfr]]]]].
    exists r, s', a, (Vector2.normalize a).
    unfold Heap.normalize, Heap.bind. rewrite La.
    repeat split; auto.
  - destruct (alloc_fresh (Vector2.clone a) s)
      as [r [s' [Hal [Hf [Hv Hfr]]]]].
    exists r, s', a, (Vector2.clone a).
    unfold Heap.clone, Heap.bind. rewrite La.
    repeat split; auto.
Qed.

(** The call [v0.add(v1)] in a store of two vectors. *)
Lemma C8_witness :
  Forall (fun r => (r < List.length Sample.two_vectors)%nat)
    (Heap.operands 0%nat (Heap.Add 1%nat)) /\
  exists r s' a v,
    Heap.call 0%nat (Heap.Add 1%nat) Sample.two_vectors
      = Some (r, s') /\
    nth_error Sample.two_vectors 0%nat = Some a /\
    Heap.value_of a (Heap.Add 1%nat) Sample.two_vectors
      = Some v /\
    nth_error Sample.two_vectors r = None /\
    nth_error s' r = Some v /\
    (forall l o, nth_error Sample.two_vectors l = Some o ->
                 nth_error s' l = Some o) /\
    Forall (fun l => nth_error s' l
                     = nth_error Sample.two_vectors l)
      (Heap.operands 0%nat (Heap.Add 1%nat)).
Proof.
  assert (H : Forall
    (fun r => (r < List.length Sample.two_vectors)%nat)
    (Heap.operands 0%nat (Heap.Add 1%nat))).
  { simpl. repeat constructor. }
  split; [exact H|].
  exact (C8_operations_return_new_vector
           Sample.two_vectors 0%nat (Heap.Add 1%nat) H).
Defined.

(** ** The frame driver *)

Section GameFacts.
Import Game.

Lemma clamp_bounds (lo hi v : R) :
  lo <= hi -> lo <= JS.Math_max lo (JS.Math_min hi v) <= hi.
Proof.
  intros H. unfold JS.Math_max, JS.Math_min, Rmax, Rmin.
  destruct (Rle_dec hi v); destruct (Rle_dec lo _); lra.
Qed.

Lemma clamp_inside (lo hi v : R) :
  lo <= v <= hi -> JS.Math_max lo (JS.Math_min hi v) = v.
Proof.
  intros H. unfold JS.Math_max, JS.Math_min, Rmax, Rmin.
  destruct (Rle_dec hi v); destruct (Rle_dec lo _); lra.
Qed.

Lemma update_renderer (dt : R) (g : Game) : renderer (update dt g) = renderer g.
Proof. reflexivity. Qed.

Lemma update_running (dt : R) (g : Game) : running (update dt g) = running g.
Proof. reflexivity. Qed.

Lemma updateFPS_running (dt : R) (g : Game) :
  running (updateFPS dt g) = running g.
Proof. unfold updateFPS. destruct (JS.ge _ _); reflexivity. Qed.

Lemma gameLoop_stopped (t : R) (g : Game) (w : Browser.World) :
  running g = false -> gameLoop t g w = (g, w).
Proof. intros H. unfold gameLoop. rewrite H. reflexivity. Qed.

Lemma gameLoop_running (t : R) (g : Game) (w : Browser.World) :
  running g = true ->
  gameLoop t g w =
    (update (deltaTime t g) (updateFPS (deltaTime t g) (set_lastTime t g)),
     Browser.requestAnimationFrame
       (render
          (update (deltaTime t g) (updateFPS (deltaTime t g) (set_lastTime t g)))
          w)).
Proof. intros H. unfold gameLoop. rewrite H. reflexivity. Qed.

Lemma gameLoop_keeps_running (t : R) (g : Game) (w : Browser.World) :
  running (fst (gameLoop t g w)) = running g.
Proof.
  destruct (running g) eqn:E.
  - rewrite gameLoop_running by exact E. cbn [fst].
    rewrite update_running, updateFPS_running. exact E.
  - rewrite gameLoop_stopped by exact E. exact E.
Qed.

End GameFacts.



Section LoopFacts.
Import Browser.

Lemma frames_after_stop (times : list R) (g : Game.Game) (w : World) :
  Game.running g = false ->
  exists w',
    Page.animationFrames_at times (g, w) = (g, w') /\
    canvas_ops w' = canvas_ops w /\
    console w' = console w /\
    listeners w' = listeners w /\
    animationFrames w' = (animationFrames w - List.length times)%nat.
Proof.
  intros Hstop. revert w.
  induction times as [|t times IH]; intros w.
  - exists w. cbn. repeat split; auto. lia.
  - cbn [Page.animationFrames_at fold_left].
    unfold Page.animationFrame at 2.
    destruct (animationFrames w) as [|n] eqn:En.
    + destruct (IH w) as [w' [Hrun [Hc [Hl [Hls Hn]]]]].
      exists w'. unfold Page.animationFrames_at in Hrun. rewrite Hrun.
      repeat split; auto. rewrite Hn, En. reflexivity.
    + rewrite gameLoop_stopped by exact Hstop.
      destruct (IH (takeAnimationFrame w)) as [w' [Hrun [Hc [Hl [Hls Hn]]]]].
      exists w'. unfold Page.animationFrames_at in Hrun. rewrite Hrun.
      repeat split; auto.
      rewrite Hn. cbn [takeAnimationFrame animationFrames List.length].
      rewrite En. reflexivity.
Qed.

End LoopFacts.

Section LoggerFacts.
Import Browser.

Lemma info_frame (m : string) (w : World) :
  animationFrames (Logger.info m w) = animationFrames w /\
  canvas_ops (Logger.info m w) = canvas_ops w /\
  listeners (Logger.info m w) = listeners w.
Proof. unfold Logger.info. destruct (Logger_enabled w); repeat split. Qed.

Lemma warn_frame (m : string) (w : World) :
  animationFrames (Logger.warn m w) = animationFrames w /\
  canvas_ops (Logger.warn m w) = canvas_ops w /\
  listeners (Logger.warn m w) = listeners w.
Proof. unfold Logger.warn. destruct (Logger_enabled w); repeat split. Qed.

End LoggerFacts.

(** C7. Once [stop] has been called, the game is not running, an invocation
    of [gameLoop] returns with the game and the world exactly as they were
    (no update, no drawing, no new animation frame requested), and however
    many animation frames the browser still delivers, the game never
    changes again, nothing is drawn or logged, and the number of pending
    callbacks only goes down. *)
Theorem C7_no_step_after_stop (g : Game.Game) (w : Browser.World) :
  let g1 := fst (Game.stop g w) in
  let w1 := snd (Game.stop g w) in
  Game.running g1 = false /\
  (forall t, Game.gameLoop t g1 w1 = (g1, w1)) /\
  forall times, exists w2,
    Page.animationFrames_at times (g1, w1) = (g1, w2) /\
    Browser.canvas_ops w2 = Browser.canvas_ops w1 /\
    Browser.console w2 = Browser.console w1 /\
    Browser.animationFrames w2
      = (Browser.animationFrames w1 - List.length times)%nat /\
    (Browser.animationFrames w2 <= Browser.animationFrames w1)%nat.
Proof.
  cbv zeta. cbn [Game.stop fst snd].
  assert (Hs : Game.running (Game.set_running false g) = false) by reflexivity.
  split; [exact Hs|]. split.
  - intros t. apply gameLoop_stopped. exact Hs.
  - intros times.
    destruct (frames_after_stop times _ (Logger.info "Game stopped" w) Hs)
      as [w2 [Hrun [Hc [Hl [_ Hn]]]]].
    exists w2. repeat split; auto. rewrite Hn. lia.
Qed.

(** The sample game, stopped: a frame delivered afterwards does nothing. *)
Lemma C7_witness :
  Game.gameLoop 1000 (fst (Game.stop Sample.game Browser.initial))
    (snd (Game.stop Sample.game Browser.initial))
  = Game.stop Sample.game Browser.initial.
Proof.
  destruct (C7_no_step_after_stop Sample.game Browser.initial) as [_ [H _]].
  apply H.
Defined.

(** C10. [start] on a game that is running returns the game unchanged
    (the running flag, [lastTime] and every other field), only logs a
    warning, requests no animation frame and draws nothing; calling it
    again changes nothing either. *)
Theorem C10_start_while_running_is_noop
  (now0 now1 : R) (g : Game.Game) (w : Browser.World) :
  Game.running g = true ->
  Game.start now0 now1 g w = (g, Logger.warn "Game is already running" w) /\
  Game.running (fst (Game.start now0 now1 g w)) = Game.running g /\
  Game.lastTime (fst (Game.start now0 now1 g w)) = Game.lastTime g /\
  Browser.animationFrames (snd (Game.start now0 now1 g w))
    = Browser.animationFrames w /\
  Browser.canvas_ops (snd (Game.start now0 now1 g w)) = Browser.canvas_ops w /\
  forall now2 now3 w',
    fst (Game.start now2 now3 (fst (Game.start now0 now1 g w)) w')
      = fst (Game.start now0 now1 g w).
Proof.
  intros Hrun.
  assert (Hst : forall a b w0,
             Game.start a b g w0 = (g, Logger.warn "Game is already running" w0)).
  { intros a b w0. unfold Game.start. rewrite Hrun. reflexivity. }
  rewrite Hst. cbn [fst snd].
  destruct (warn_frame "Game is already running" w) as [Hf [Hc _]].
  repeat split; auto.
  intros now2 now3 w'. rewrite Hst. reflexivity.
Qed.

(** The sample game is running. *)
Lemma C10_witness :
  Game.running Sample.game = true /\
  Game.start 16 17 Sample.game Browser.initial
    = (Sample.game, Logger.warn "Game is already running" Browser.initial).
Proof.
  split; [reflexivity|].
  apply (C10_start_while_running_is_noop 16 17 Sample.game Browser.initial).
  reflexivity.
Defined.

(** A second [start] right after a first one finds the game running: on
    the game, [start] twice is [start] once. *)
Lemma start_idempotent (now0 now1 now2 now3 : R) (g : Game.Game)
  (w w' : Browser.World) :
  fst (Game.start now2 now3 (fst (Game.start now0 now1 g w)) w')
    = fst (Game.start now0 now1 g w).
Proof.
  assert (Hrun : Game.running (fst (Game.start now0 now1 g w)) = true).
  { unfold Game.start. destruct (Game.running g) eqn:E.
    - exact E.
    - pose proof (gameLoop_keeps_running now1
                    (Game.set_lastTime now0 (Game.set_running true g)) w) as K.
      destruct (Game.gameLoop now1 _ w) as [g' w'']. exact K. }
  unfold Game.start at 1. rewrite Hrun. reflexivity.
Qed.

(** ** Startup *)

(** C6. [new Renderer(canvas)] throws exactly when the canvas has no 2D
    context, and then with the message of the source; with a context it
    returns a renderer of the canvas's size.  Without a context the
    constructor of [Game] throws the same error before it does anything
    else, and the entry point ends with that error: no game exists, nothing
    was drawn, no listener and no animation frame was registered. *)
Theorem C6_renderer_throws_iff_no_context (canvas : Browser.HTMLCanvasElement) :
  let failure :=
    {| JS.message := "Failed to get 2D context from canvas" |} in
  ((exists e, Renderer.new canvas = JS.Throw e)
     <-> Browser.getContext canvas = None) /\
  (Browser.getContext canvas = None -> Renderer.new canvas = JS.Throw failure) /\
  (forall c, Browser.getContext canvas = Some c ->
     Renderer.new canvas
       = JS.Return {| Renderer.ctx := c;
                      Renderer.width := Browser.width canvas;
                      Renderer.height := Browser.height canvas |}) /\
  (Browser.getContext canvas = None ->
     forall w, Game.new canvas w = (JS.Throw failure, w)) /\
  (Browser.getContext canvas = None ->
     forall now0 now1 w,
       Page.main (Some canvas) now0 now1 w
         = (JS.Throw failure,
            Logger.info "Elemental Survivors - Starting..." w) /\
       Browser.animationFrames (snd (Page.main (Some canvas) now0 now1 w))
         = Browser.animationFrames w /\
       Browser.canvas_ops (snd (Page.main (Some canvas) now0 now1 w))
         = Browser.canvas_ops w /\
       Browser.listeners (snd (Page.main (Some canvas) now0 now1 w))
         = Browser.listeners w).
Proof.
  cbv zeta. unfold Renderer.new.
  split; [|split; [|split; [|split]]].
  - destruct (Browser.getContext canvas) as [c|]; split.
    + intros [e He]. discriminate He.
    + intros H. discriminate H.
    + reflexivity.
    + intros _. eexists. reflexivity.
  - intros H. rewrite H. reflexivity.
  - intros c H. rewrite H. reflexivity.
  - intros H w. unfold Game.new, Renderer.new. rewrite H. reflexivity.
  - intros H now0 now1 w.
    assert (Hm : Page.main (Some canvas) now0 now1 w
                 = (JS.Throw {| JS.message :=
                                  "Failed to get 2D context from canvas" |},
                    Logger.info "Elemental Survivors - Starting..." w)).
    { unfold Page.main, Game.new, Renderer.new, Browser.getContext in *.
      cbn [Browser.context2d]. rewrite H. reflexivity. }
    rewrite Hm. cbn [snd].
    destruct (info_frame "Elemental Survivors - Starting..." w)
      as [Hf [Hc Hl]].
    repeat split; assumption.
Qed.

(** A canvas whose [getContext('2d')] is [null]. *)
Lemma C6_witness :
  Browser.getContext Sample.canvas_without_context = None /\
  Renderer.new Sample.canvas_without_context
    = JS.Throw {| JS.message := "Failed to get 2D context from canvas" |} /\
  fst (Page.main (Some Sample.canvas_without_context) 0 1 Browser.initial)
    = JS.Throw {| JS.message := "Failed to get 2D context from canvas" |}.
Proof.
  destruct (C6_renderer_throws_iff_no_context Sample.canvas_without_context)
    as [_ [Hr [_ [_ Hm]]]].
  split; [reflexivity|]. split.
  - apply Hr. reflexivity.
  - destruct (Hm eq_refl 0 1 Browser.initial) as [H _]. rewrite H. reflexivity.
Defined.

(** ** The time step *)

Section SampleTick.
Import Game.

Lemma sample_direction :
  Input.getMovementDirection (input Sample.game) = Vector2.new 1 0.
Proof.
  change (Input.getMovementDirection (input Sample.game))
    with (if JS.gt (Vector2.length (Vector2.new (0 + 1) 0)) 0
          then Vector2.normalize (Vector2.new (0 + 1) 0)
          else Vector2.new (0 + 1) 0).
  assert (Hl : Vector2.length (Vector2.new (0 + 1) 0) = 1).
  { unfold Vector2.length, JS.Math_sqrt. cbn [Vector2.x Vector2.y].
    replace ((0 + 1) * (0 + 1) + 0 * 0) with 1 by ring. apply sqrt_1. }
  assert (Hg : JS.gt (Vector2.length (Vector2.new (0 + 1) 0)) 0 = true).
  { apply gt_true. rewrite Hl. lra. }
  rewrite Hg. unfold Vector2.normalize.
  rewrite normalize_div_branch by (rewrite Hl; lra).
  rewrite Hl. cbn [fst Vector2.x Vector2.y]. f_equal; field.
Qed.

Lemma sample_tick_position (dt : R) :
  0 <= dt <= 3 ->
  playerPosition (update dt (updateFPS dt (set_lastTime 1000 Sample.game)))
    = Vector2.new (640 + 200 * dt) 360.
Proof.
  intros Hdt.
  assert (Hin : input (updateFPS dt (set_lastTime 1000 Sample.game))
                = input Sample.game)
    by (unfold updateFPS; destruct (JS.ge _ _); reflexivity).
  assert (Hp : playerPosition (updateFPS dt (set_lastTime 1000 Sample.game))
               = Vector2.new 640 360)
    by (unfold updateFPS; destruct (JS.ge _ _); reflexivity).
  assert (Hs : playerSpeed (updateFPS dt (set_lastTime 1000 Sample.game)) = 200)
    by (unfold updateFPS; destruct (JS.ge _ _); reflexivity).
  assert (Hr : renderer (updateFPS dt (set_lastTime 1000 Sample.game))
               = renderer Sample.game)
    by (unfold updateFPS; destruct (JS.ge _ _); reflexivity).
  unfold update. rewrite Hin, Hp, Hs, Hr, sample_direction.
  cbn [playerPosition set_playerPosition Vector2.add Vector2.multiply
       Vector2.x Vector2.y renderer Sample.game Renderer.getWidth
       Renderer.getHeight Renderer.width Renderer.height].
  rewrite !clamp_inside by lra. f_equal; ring.
Qed.

End SampleTick.

(** C1, as the code has it. On every tick of the running loop the time step
    handed to [updateFPS] and [update] is the time elapsed since the
    previous tick, [(currentTime - lastTime) / 1000] seconds, with no upper
    bound applied: it is at most 0.1 s exactly when at most 100 ms
    elapsed. *)
Theorem C1_deltaTime_is_elapsed_time_unclamped
  (currentTime : R) (g : Game.Game) (w : Browser.World) :
  Game.running g = true ->
  let dt := (currentTime - Game.lastTime g) / 1000 in
  let g' := Game.update dt (Game.updateFPS dt (Game.set_lastTime currentTime g)) in
  Game.gameLoop currentTime g w
    = (g', Browser.requestAnimationFrame (Game.render g' w)) /\
  Game.lastTime g' = currentTime /\
  (dt <= 0.1 <-> currentTime - Game.lastTime g <= 100).
Proof.
  intros Hrun. cbv zeta. split; [|split].
  - rewrite gameLoop_running by exact Hrun. reflexivity.
  - unfold Game.update, Game.updateFPS.
    destruct (JS.ge _ _); reflexivity.
  - split; intros H; lra.
Qed.

(** The sample game, ticked one second after its previous tick. *)
Lemma C1_witness :
  Game.running Sample.game = true /\
  fst (Game.gameLoop 1000 Sample.game Browser.initial)
    = Game.update ((1000 - Game.lastTime Sample.game) / 1000)
        (Game.updateFPS ((1000 - Game.lastTime Sample.game) / 1000)
           (Game.set_lastTime 1000 Sample.game)).
Proof.
  split; [reflexivity|].
  destruct (C1_deltaTime_is_elapsed_time_unclamped
              1000 Sample.game Browser.initial eq_refl) as [H _].
  rewrite H. reflexivity.
Defined.

(** C1, as the spec states it, fails: the sample game is running, one
    second passes between two ticks, and the loop hands the whole second to
    the update step, which moves the player by 200 pixels. *)
Lemma C1_counterexample :
  Game.running Sample.game = true /\
  Game.deltaTime 1000 Sample.game = 1 /\
  ~ (Game.deltaTime 1000 Sample.game <= 0.1) /\
  forall w,
    fst (Game.gameLoop 1000 Sample.game w)
      = Game.update 1 (Game.updateFPS 1 (Game.set_lastTime 1000 Sample.game)) /\
    Game.playerPosition (fst (Game.gameLoop 1000 Sample.game w))
      = Vector2.new 840 360.
Proof.
  assert (Hdt : Game.deltaTime 1000 Sample.game = 1).
  { unfold Game.deltaTime. cbn [Game.lastTime Sample.game]. lra. }
  split; [reflexivity|]. split; [exact Hdt|]. split.
  - rewrite Hdt. lra.
  - intros w. rewrite gameLoop_running by reflexivity. cbn [fst].
    rewrite Hdt. split; [reflexivity|].
    rewrite sample_tick_position by lra. f_equal; ring.
Qed.

(** ** The spawn scheduler *)

Section SpawnFacts.
Import SpawnSystem.

Lemma getSpawnInterval_le_start (this : SpawnSystem) :
  0 <= gameTime this -> getSpawnInterval this <= 2.
Proof.
  intros H. unfold getSpawnInterval, JS.Math_min, Rmin.
  destruct (Rle_dec (gameTime this / 600) 1); lra.
Qed.

Lemma getSpawnInterval_ge_min (this : SpawnSystem) :
  3 / 10 <= getSpawnInterval this.
Proof.
  unfold getSpawnInterval, JS.Math_min, Rmin.
  destruct (Rle_dec (gameTime this / 600) 1); lra.
Qed.

Lemma activeEnemies_spawnEnemy (r : R) (p : Vector2.Vector2)
  (m : EntityManager) :
  activeEnemies (spawnEnemy r p m) = S (activeEnemies m) /\
  List.length (spawnEnemy r p m) = S (List.length m).
Proof.
  unfold activeEnemies, spawnEnemy, addEntity. split.
  - rewrite filter_app, length_app. cbn. lia.
  - rewrite length_app. cbn. lia.
Qed.

Lemma update_spawns (dt : R) (p : Vector2.Vector2) (r : R)
  (this : SpawnSystem) (m : EntityManager) :
  getSpawnInterval {| spawnTimer := spawnTimer this + dt;
                      gameTime := gameTime this + dt |}
    <= spawnTimer this + dt ->
  update dt p r (this, m)
    = ({| spawnTimer := 0; gameTime := gameTime this + dt |},
       spawnEnemy r p m).
Proof.
  intros H. unfold update. cbn [spawnTimer gameTime].
  apply ge_true in H. rewrite H. reflexivity.
Qed.

Lemma update_waits (dt : R) (p : Vector2.Vector2) (r : R)
  (this : SpawnSystem) (m : EntityManager) :
  spawnTimer this + dt
    < getSpawnInterval {| spawnTimer := spawnTimer this + dt;
                          gameTime := gameTime this + dt |} ->
  update dt p r (this, m)
    = ({| spawnTimer := spawnTimer this + dt;
          gameTime := gameTime this + dt |}, m).
Proof.
  intros H. unfold update. cbn [spawnTimer gameTime].
  apply ge_false in H. rewrite H. reflexivity.
Qed.

(** Ticks of two seconds each: every one of them spawns. *)
Lemma slow_ticks_all_spawn (n : nat) (p : Vector2.Vector2) (r : R)
  (this : SpawnSystem) (m : EntityManager) :
  spawnTimer this = 0 -> 0 <= gameTime this ->
  let st := updates (repeat (2, p, r) n) (this, m) in
  spawnTimer (fst st) = 0 /\
  activeEnemies (snd st) = (activeEnemies m + n)%nat.
Proof.
  revert this m. induction n as [|n IH]; intros this m Ht Hg; cbv zeta.
  - cbn [repeat updates fold_left fst snd]. split; [exact Ht|].
    rewrite Nat.add_0_r. reflexivity.
  - cbn [repeat updates fold_left].
    rewrite update_spawns.
    + specialize (IH {| spawnTimer := 0; gameTime := gameTime this + 2 |}
                     (spawnEnemy r p m)).
      cbv zeta in IH. unfold updates in IH.
      destruct IH as [H1 H2]; [reflexivity|cbn [gameTime]; lra|].
      split; [exact H1|]. rewrite H2.
      destruct (activeEnemies_spawnEnemy r p m) as [Ha _]. rewrite Ha. lia.
    + rewrite Ht.
      pose proof (getSpawnInterval_le_start
                    {| spawnTimer := 0 + 2; gameTime := gameTime this + 2 |})
        as K.
      cbn [gameTime] in K. lra.
Qed.

End SpawnFacts.

(** C3, as the code has it. [update(dt)] adds [dt] to both clocks; if the
    timer has then reached the current interval it spawns exactly one enemy
    and sets the timer to exactly zero, and otherwise it spawns nothing and
    keeps the accumulated time.  One call never spawns more than one
    enemy. *)
Theorem C3_spawn_resets_timer_to_zero
  (dt : R) (p : Vector2.Vector2) (r : R)
  (this : SpawnSystem.SpawnSystem) (m : SpawnSystem.EntityManager) :
  let timer := SpawnSystem.spawnTimer this + dt in
  let interval :=
    SpawnSystem.getSpawnInterval
      {| SpawnSystem.spawnTimer := timer;
         SpawnSystem.gameTime := SpawnSystem.gameTime this + dt |} in
  let this' := fst (SpawnSystem.update dt p r (this, m)) in
  let m' := snd (SpawnSystem.update dt p r (this, m)) in
  SpawnSystem.gameTime this' = SpawnSystem.gameTime this + dt /\
  (interval <= timer ->
     SpawnSystem.spawnTimer this' = 0 /\
     m' = SpawnSystem.spawnEnemy r p m /\
     List.length m' = S (List.length m)) /\
  (timer < interval ->
     SpawnSystem.spawnTimer this' = timer /\ m' = m).
Proof.
  cbv zeta.
  destruct (Rle_lt_dec
              (SpawnSystem.getSpawnInterval
                 {| SpawnSystem.spawnTimer := SpawnSystem.spawnTimer this + dt;
                    SpawnSystem.gameTime := SpawnSystem.gameTime this + dt |})
              (SpawnSystem.spawnTimer this + dt)) as [H|H].
  - rewrite update_spawns by exact H. cbn [fst snd].
    split; [reflexivity|]. split.
    + intros _. split; [reflexivity|]. split; [reflexivity|].
      apply activeEnemies_spawnEnemy.
    + intros K. lra.
  - rewrite update_waits by exact H. cbn [fst snd].
    split; [reflexivity|]. split.
    + intros K. lra.
    + intros _. split; reflexivity.
Qed.

(** A first update of one second waits; a first update of five seconds
    spawns and leaves the timer at zero. *)
Lemma C3_witness :
  SpawnSystem.spawnTimer
    (fst (SpawnSystem.update 1 Vector2.zero 0 (SpawnSystem.new, []))) = 0 + 1 /\
  SpawnSystem.spawnTimer
    (fst (SpawnSystem.update 5 Vector2.zero 0 (SpawnSystem.new, []))) = 0.
Proof.
  split.
  - destruct (C3_spawn_resets_timer_to_zero 1 Vector2.zero 0 SpawnSystem.new [])
      as [_ [_ H]].
    apply H.
    unfold SpawnSystem.getSpawnInterval, JS.Math_min, Rmin.
    cbn [SpawnSystem.new SpawnSystem.spawnTimer SpawnSystem.gameTime].
    destruct (Rle_dec ((0 + 1) / 600) 1); lra.
  - destruct (C3_spawn_resets_timer_to_zero 5 Vector2.zero 0 SpawnSystem.new [])
      as [_ [H _]].
    apply H.
    unfold SpawnSystem.getSpawnInterval, JS.Math_min, Rmin.
    cbn [SpawnSystem.new SpawnSystem.spawnTimer SpawnSystem.gameTime].
    destruct (Rle_dec ((0 + 5) / 600) 1); lra.
Defined.

(** C3, as the spec states it, fails: a first update of five seconds spans
    more than two intervals, yet it spawns a single enemy and leaves the
    timer at zero, not at the time in excess of the interval. *)
Lemma C3_counterexample :
  let interval :=
    SpawnSystem.getSpawnInterval
      {| SpawnSystem.spawnTimer := 5; SpawnSystem.gameTime := 5 |} in
  let st := SpawnSystem.update 5 Vector2.zero 0 (SpawnSystem.new, []) in
  2 * interval <= 5 /\
  0 < 5 - interval /\
  SpawnSystem.spawnTimer (fst st) = 0 /\
  SpawnSystem.spawnTimer (fst st) <> 5 - interval /\
  List.length (snd st) = 1%nat.
Proof.
  cbv zeta.
  pose proof (getSpawnInterval_le_start
                {| SpawnSystem.spawnTimer := 5; SpawnSystem.gameTime := 5 |})
    as Hle.
  cbn [SpawnSystem.gameTime] in Hle. specialize (Hle ltac:(lra)).
  rewrite update_spawns.
  - cbn [fst snd SpawnSystem.spawnTimer].
    repeat split; try lra.
  - cbn [SpawnSystem.new SpawnSystem.spawnTimer SpawnSystem.gameTime].
    replace (0 + 5) with 5 by ring. lra.
Qed.

(** C4, on the code: starting from an empty entity manager, 101 ticks of
    two seconds each leave 101 active enemies, one more than
    [EnemyConfig.MAX_ENEMIES]; no spawn was skipped, and the timer is back
    at zero. *)
Theorem C4_population_cap_exceeded :
  let st := SpawnSystem.updates (repeat (2, Vector2.zero, 0) 101)
              (SpawnSystem.new, []) in
  SpawnSystem.activeEnemies (snd st) = 101%nat /\
  (EnemyConfig.MAX_ENEMIES < SpawnSystem.activeEnemies (snd st))%nat /\
  SpawnSystem.spawnTimer (fst st) = 0.
Proof.
  cbv zeta.
  assert (H : SpawnSystem.spawnTimer
                (fst (SpawnSystem.updates (repeat (2, Vector2.zero, 0) 101)
                        (SpawnSystem.new, []))) = 0 /\
              SpawnSystem.activeEnemies
                (snd (SpawnSystem.updates (repeat (2, Vector2.zero, 0) 101)
                        (SpawnSystem.new, []))) = 101%nat).
  { apply (slow_ticks_all_spawn 101 Vector2.zero 0 SpawnSystem.new []).
    - reflexivity.
    - cbn [SpawnSystem.new SpawnSystem.gameTime]. lra. }
  destruct H as [Ht Hn]. rewrite Hn.
  split; [reflexivity|]. split; [|exact Ht].
  unfold EnemyConfig.MAX_ENEMIES. lia.
Qed.

(** ** Field assignment, and the position update on objects *)

Section ObjectFacts.
Import Heap.

Lemma overwrite_length (s : store) (r : ref) (v : Vector2.Vector2) :
  List.length (overwrite s r v) = List.length s.
Proof.
  revert r. induction s as [|hd tl IH]; intros [|r]; cbn; auto.
Qed.

Lemma overwrite_same (s : store) (r : ref) (v : Vector2.Vector2) :
  (r < List.length s)%nat -> nth_error (overwrite s r v) r = Some v.
Proof.
  revert r. induction s as [|hd tl IH]; intros [|r] H; cbn in *; try lia.
  - reflexivity.
  - apply IH. lia.
Qed.

Lemma overwrite_other (s : store) (r l : ref) (v : Vector2.Vector2) :
  l <> r -> nth_error (overwrite s r v) l = nth_error s l.
Proof.
  revert r l. induction s as [|hd tl IH]; intros [|r] [|l] H; cbn;
    try reflexivity; try congruence.
  apply IH. congruence.
Qed.

(** An assignment to [r.x] changes the object [r] and no other. *)
Lemma set_x_assigns (s : store) (r : ref) (v : R) (o : Vector2.Vector2) :
  nth_error s r = Some o ->
  exists s',
    set_x r v s = Some (tt, s') /\
    nth_error s' r = Some (Vector2.new v (Vector2.y o)) /\
    forall l, l <> r -> nth_error s' l = nth_error s l.
Proof.
  intros H. unfold set_x. rewrite H. eexists. split; [reflexivity|]. split.
  - apply overwrite_same. apply nth_error_Some. congruence.
  - intros l Hl. apply overwrite_other, Hl.
Qed.

Lemma set_y_assigns (s : store) (r : ref) (v : R) (o : Vector2.Vector2) :
  nth_error s r = Some o ->
  exists s',
    set_y r v s = Some (tt, s') /\
    nth_error s' r = Some (Vector2.new (Vector2.x o) v) /\
    forall l, l <> r -> nth_error s' l = nth_error s l.
Proof.
  intros H. unfold set_y. rewrite H. eexists. split; [reflexivity|]. split.
  - apply overwrite_same. apply nth_error_Some. congruence.
  - intros l Hl. apply overwrite_other, Hl.
Qed.

(** [Game.update] computes on values what the source does on objects: the
    two field assignments act on the vector [add] has just allocated, so the
    object that held the position before, and every other one, is left as
    it was. *)
Lemma update_position_refines (s : store) (position direction : ref)
  (g : Game.Game) (dt : R) :
  nth_error s position = Some (Game.playerPosition g) ->
  nth_error s direction = Some (Input.getMovementDirection (Game.input g)) ->
  exists p s',
    GameObjects.update_position position direction g dt s = Some (p, s') /\
    nth_error s p = None /\
    nth_error s' p = Some (Game.playerPosition (Game.update dt g)) /\
    forall l o, nth_error s l = Some o -> nth_error s' l = Some o.
Proof.
  intros Hp Hd.
  set (dv := Vector2.multiply (Input.getMovementDirection (Game.input g))
               (Game.playerSpeed g * dt)).
  set (pv := Vector2.add (Game.playerPosition g) dv).
  set (s1 := s ++ [dv]).
  set (s2 := s1 ++ [pv]).
  set (p := List.length s1).
  assert (Hlen1 : List.length s1 = S (List.length s))
    by (unfold s1; rewrite length_app; cbn; lia).
  assert (Hold1 : forall l o, nth_error s l = Some o -> nth_error s1 l = Some o).
  { intros l o H. unfold s1. rewrite nth_error_app1; [exact H|].
    apply nth_error_Some. congruence. }
  assert (Hold2 : forall l o, nth_error s1 l = Some o -> nth_error s2 l = Some o).
  { intros l o H. unfold s2. rewrite nth_error_app1; [exact H|].
    apply nth_error_Some. congruence. }
  assert (Hnew : nth_error s2 p = Some pv).
  { unfold s2, p. rewrite nth_error_app2 by apply Nat.le_refl.
    rewrite Nat.sub_diag. reflexivity. }
  destruct (set_x_assigns s2 p
              (JS.Math_max 20
                 (JS.Math_min (Renderer.getWidth (Game.renderer g) - 20)
                    (Vector2.x pv))) pv Hnew)
    as [s3 [Hsx [Hx Hox]]].
  destruct (set_y_assigns s3 p
              (JS.Math_max 20
                 (JS.Math_min (Renderer.getHeight (Game.renderer g) - 20)
                    (Vector2.y pv))) _ Hx)
    as [s4 [Hsy [Hy Hoy]]].
  exists p, s4. split; [|split; [|split]].
  - unfold GameObjects.update_position, multiply, add, bind, load, alloc, ret.
    rewrite Hd. fold dv. fold s1.
    rewrite (Hold1 _ _ Hp).
    assert (Hdref : nth_error s1 (List.length s) = Some dv).
    { unfold s1. rewrite nth_error_app2 by apply Nat.le_refl.
      rewrite Nat.sub_diag. reflexivity. }
    rewrite Hdref. fold pv. fold s2. fold p.
    rewrite Hnew, Hsx, Hx. cbn [Vector2.y Vector2.x].
    rewrite Hsy. reflexivity.
  - apply nth_error_None. unfold p. lia.
  - rewrite Hy. reflexivity.
  - intros l o H.
    assert (Hl : l <> p).
    { assert (l < List.length s)%nat by (apply nth_error_Some; congruence).
      unfold p. lia. }
    rewrite Hoy, Hox by exact Hl. apply Hold2, Hold1, H.
Qed.

End ObjectFacts.

(** ** The keyboard *)

Section InputFacts.
Import Input.

Lemma lower_idempotent (c : ascii) : lower (lower c) = lower c.
Proof.
  destruct c as [[] [] [] [] [] [] [] []]; reflexivity.
Qed.

Lemma toLowerCase_idempotent (k : string) :
  toLowerCase (toLowerCase k) = toLowerCase k.
Proof.
  induction k as [|c k IH]; cbn; [reflexivity|].
  rewrite lower_idempotent, IH. reflexivity.
Qed.

Lemma has_set_add (ks : list string) (k : string) : has (set_add ks k) k = true.
Proof.
  unfold set_add. destruct (has ks k) eqn:E; [exact E|].
  unfold has. rewrite existsb_app. cbn. rewrite String.eqb_refl.
  apply orb_true_iff. right. reflexivity.
Qed.

Lemma has_set_delete (ks : list string) (k : string) :
  has (set_delete ks k) k = false.
Proof.
  unfold has, set_delete. induction ks as [|k' ks IH]; cbn; [reflexivity|].
  destruct (String.eqb k k') eqn:E; cbn; [exact IH|].
  rewrite E. exact IH.
Qed.

(** A key is held from its [keydown] to its [keyup], whatever its case. *)
Lemma isKeyPressed_keydown (i : Input) (k : string) :
  isKeyPressed (keydown k i) k = true.
Proof. unfold isKeyPressed, keydown. cbn [keys]. apply has_set_add. Qed.

Lemma isKeyPressed_keyup (i : Input) (k : string) :
  isKeyPressed (keyup k i) k = false.
Proof. unfold isKeyPressed, keyup. cbn [keys]. apply has_set_delete. Qed.

Lemma isKeyPressed_blur (i : Input) (k : string) :
  isKeyPressed (blur i) k = false.
Proof. reflexivity. Qed.

End InputFacts.

(** * Further properties of the sources *)

(** ** Vector2: distance *)

Section Vector2Distance.
Import Vector2.

Lemma distance_as_length (a b : Vector2) : distance a b = length (subtract b a).
Proof. reflexivity. Qed.

End Vector2Distance.

(** [Vector2.distance] is never negative, does not depend on the order of
    its two arguments, and is zero from a point to itself. *)
Theorem distance_symmetric_nonnegative (a b : Vector2.Vector2) :
  0 <= Vector2.distance a b /\
  Vector2.distance a b = Vector2.distance b a /\
  Vector2.distance a a = 0.
Proof.
  split; [|split].
  - rewrite distance_as_length. apply length_nonneg.
  - unfold Vector2.distance. cbv zeta. f_equal. unfold JS.number. ring.
  - rewrite distance_as_length. apply length_zero_iff.
    unfold Vector2.subtract, Vector2.zero. f_equal; unfold JS.number; ring.
Qed.

(** ** MathUtils *)

(** With [min <= max], [clamp] returns a value of the range, returns a
    value of the range unchanged, and clamping twice is clamping once. *)
Theorem clamp_in_range (value min max : R) :
  min <= max ->
  min <= MathUtils.clamp value min max <= max /\
  (min <= value <= max -> MathUtils.clamp value min max = value) /\
  MathUtils.clamp (MathUtils.clamp value min max) min max
    = MathUtils.clamp value min max.
Proof.
  intros H. unfold MathUtils.clamp, JS.Math_max, JS.Math_min, Rmax, Rmin.
  repeat split; repeat destruct (Rle_dec _ _); try lra.
Qed.

Lemma clamp_in_range_witness :
  0 <= MathUtils.clamp 15 0 10 <= 10 /\
  (0 <= 15 <= 10 -> MathUtils.clamp 15 0 10 = 15) /\
  MathUtils.clamp (MathUtils.clamp 15 0 10) 0 10 = MathUtils.clamp 15 0 10.
Proof.
  apply (clamp_in_range 15 0 10). lra.
Defined.

(** With the bounds in the wrong order, [clamp] returns [max] whatever the
    value, while the clamp written out in [Game.update],
    [Math.max(lo, Math.min(hi, v))], returns the lower bound; with the
    bounds in order the two agree. *)
Theorem clamp_inverted_bounds (value lo hi : R) :
  (hi < lo -> MathUtils.clamp value lo hi = hi /\
              JS.Math_max lo (JS.Math_min hi value) = lo) /\
  (lo <= hi -> JS.Math_max lo (JS.Math_min hi value)
               = MathUtils.clamp value lo hi).
Proof.
  unfold MathUtils.clamp, JS.Math_max, JS.Math_min, Rmax, Rmin.
  repeat split; repeat destruct (Rle_dec _ _); try lra.
Qed.

(** For bounds of ordinary size, [lerp] returns [start] at [t = 0]; from
    [start <= end] it follows that the value never decreases as [t] grows
    and is never below [start] for [t >= 0], and from [end <= start] that
    it never increases and is never above [start]. *)
Theorem lerp_monotone (a b t t' : R) :
  - 10 ^ 300 <= a <= 10 ^ 300 -> - 10 ^ 300 <= b <= 10 ^ 300 ->
  MathUtils.lerp a b 0 = a /\
  (a <= b -> t <= t' -> MathUtils.lerp a b t <= MathUtils.lerp a b t') /\
  (a <= b -> 0 <= t -> a <= MathUtils.lerp a b t) /\
  (b <= a -> t <= t' -> MathUtils.lerp a b t' <= MathUtils.lerp a b t) /\
  (b <= a -> 0 <= t -> MathUtils.lerp a b t <= a).
Proof.
  intros _ _. unfold MathUtils.lerp, JS.number.
  split; [ring|]. repeat split; intros; nra.
Qed.

Lemma lerp_monotone_witness :
  MathUtils.lerp 0 10 0 = 0 /\
  (0 <= 10 -> 1 / 4 <= 3 / 4 ->
     MathUtils.lerp 0 10 (1 / 4) <= MathUtils.lerp 0 10 (3 / 4)).
Proof.
  assert (H : 1 <= 10 ^ 300) by (apply pow_R1_Rle; lra).
  destruct (lerp_monotone 0 10 (1 / 4) (3 / 4)) as [H0 [H1 _]];
    [lra|lra|].
  split; assumption.
Defined.

(** For a random value in [0, 1) and bounds [min <= max] of ordinary size,
    [randomRange] returns a value that is at least [min] and at most [max]
    ([max] itself is not excluded), and [min] when [min = max]. *)
Theorem randomRange_in_range (random min max : R) :
  0 <= random < 1 -> min <= max ->
  - 10 ^ 300 <= min -> max <= 10 ^ 300 ->
  min <= MathUtils.randomRange random min max <= max /\
  (min = max -> MathUtils.randomRange random min max = min).
Proof.
  intros Hr Hm _ _. unfold MathUtils.randomRange, JS.number.
  repeat split; nra.
Qed.

Lemma randomRange_in_range_witness :
  -10 <= MathUtils.randomRange (1 / 2) (-10) (-5) <= -5.
Proof.
  assert (H : 1 <= 10 ^ 300) by (apply pow_R1_Rle; lra).
  apply (randomRange_in_range (1 / 2) (-10) (-5)); lra.
Defined.

Lemma floor_bounds (r : R) (n : Z) :
  0 <= r < IZR n -> (0 <= Int_part r < n)%Z.
Proof.
  intros [H0 Hn]. destruct (base_Int_part r) as [Hle Hgt]. split.
  - apply le_IZR. apply Rnot_lt_le. intros Hneg.
    assert (Hz : (Int_part r <= -1)%Z).
    { apply lt_IZR in Hneg. lia. }
    apply IZR_le in Hz. lra.
  - apply lt_IZR. lra.
Qed.

(** For a random value in [0, 1) and integer bounds [min <= max],
    [randomInt] returns an integer between [min] and [max], both
    included. *)
Theorem randomInt_in_range (random : R) (lo hi : Z) :
  0 <= random < 1 -> (lo <= hi)%Z ->
  exists k : Z,
    MathUtils.randomInt random (IZR lo) (IZR hi) = IZR k /\ (lo <= k <= hi)%Z.
Proof.
  intros Hr Hm. unfold MathUtils.randomInt, JS.Math_floor.
  exists (Int_part (random * (IZR hi - IZR lo + 1)) + lo)%Z.
  split; [rewrite plus_IZR; reflexivity|].
  assert (Hn : IZR hi - IZR lo + 1 = IZR (hi - lo + 1))
    by (rewrite plus_IZR, minus_IZR; reflexivity).
  assert (Hpos : 1 <= IZR (hi - lo + 1)) by (apply IZR_le; lia).
  destruct (floor_bounds (random * (IZR hi - IZR lo + 1)) (hi - lo + 1)) as [A B].
  - rewrite Hn. nra.
  - lia.
Qed.

Lemma randomInt_in_range_witness :
  exists k : Z,
    MathUtils.randomInt (1 / 2) (IZR 0) (IZR 10) = IZR k /\ (0 <= k <= 10)%Z.
Proof.
  apply (randomInt_in_range (1 / 2) 0 10); [lra|lia].
Defined.

(** ** Input *)

Section KeyboardFacts.
Import Input.

Lemma has_set_add_other (ks : list string) (k k' : string) :
  k' <> k -> has (set_add ks k) k' = has ks k'.
Proof.
  intros H. unfold set_add. destruct (has ks k); [reflexivity|].
  unfold has. rewrite existsb_app. cbn.
  apply String.eqb_neq in H. rewrite H. rewrite !orb_false_r. reflexivity.
Qed.

Lemma has_set_delete_other (ks : list string) (k k' : string) :
  k' <> k -> has (set_delete ks k) k' = has ks k'.
Proof.
  intros H. unfold has, set_delete.
  induction ks as [|c ks IH]; cbn; [reflexivity|].
  destruct (String.eqb k c) eqn:E; cbn.
  - apply String.eqb_eq in E. subst c.
    apply String.eqb_neq in H. rewrite H. exact IH.
  - rewrite IH. reflexivity.
Qed.

(** The shape of the value [getMovementDirection] returns. *)
Lemma normalized_or_zero (v : Vector2.Vector2) :
  let d := if JS.gt (Vector2.length v) 0 then Vector2.normalize v else v in
  (v <> Vector2.zero /\ d = Vector2.normalize v /\ Vector2.length d = 1) \/
  (v = Vector2.zero /\ d = Vector2.zero).
Proof.
  cbv zeta. destruct (JS.gt (Vector2.length v) 0) eqn:E.
  - left. apply gt_true in E.
    assert (Hv : v <> Vector2.zero).
    { intros H. apply length_zero_iff in H. lra. }
    split; [exact Hv|]. split; [reflexivity|].
    apply normalize_length_one, Hv.
  - right.
    assert (Hl : Vector2.length v = 0).
    { pose proof (length_nonneg v) as Hn.
      destruct (Rle_lt_dec (Vector2.length v) 0) as [Hle|Hlt]; [lra|].
      apply gt_true in Hlt. congruence. }
    apply length_zero_iff in Hl. split; assumption.
Qed.

Lemma no_keys_no_direction (j : Input) :
  keys j = [] -> getMovementDirection j = Vector2.new 0 0.
Proof.
  intros Hj. unfold getMovementDirection, isKeyPressed.
  rewrite Hj. cbn [has existsb orb]. cbv zeta.
  destruct (normalized_or_zero (Vector2.new 0 0)) as [[Hn _]|[_ Hz]].
  - exfalso. apply Hn. reflexivity.
  - exact Hz.
Qed.

End KeyboardFacts.

(** For keys named in ASCII: a key is held from its [keydown] until its
    [keyup], whatever the case of the letters in the event and in the
    query, and after any number of [keydown] events repeated in between a
    single [keyup] releases it; the events of one key leave the state of
    every other key as it was. *)
Theorem key_held_until_released
  (i : Input.Input) (k k' : string) (n : nat) :
  Input.ascii_only k = true -> Input.ascii_only k' = true ->
  (Input.toLowerCase k' = Input.toLowerCase k ->
     Input.isKeyPressed (Nat.iter (S n) (Input.keydown k) i) k' = true /\
     Input.isKeyPressed (Input.keyup k (Nat.iter n (Input.keydown k) i)) k'
       = false) /\
  (Input.toLowerCase k' <> Input.toLowerCase k ->
     Input.isKeyPressed (Nat.iter n (Input.keydown k) i) k'
       = Input.isKeyPressed i k' /\
     Input.isKeyPressed (Input.keyup k i) k' = Input.isKeyPressed i k').
Proof.
  intros _ _. split.
  - intros E. unfold Input.isKeyPressed. rewrite E. split.
    + cbn [Nat.iter]. unfold Input.keydown at 1. cbn [Input.keys].
      apply has_set_add.
    + unfold Input.keyup. cbn [Input.keys]. apply has_set_delete.
  - intros H. split.
    + induction n as [|n IH]; [reflexivity|].
      cbn [Nat.iter]. rewrite <- IH.
      unfold Input.isKeyPressed, Input.keydown. cbn [Input.keys].
      apply has_set_add_other, H.
    + unfold Input.isKeyPressed, Input.keyup. cbn [Input.keys].
      apply has_set_delete_other, H.
Qed.

(** The event key "W" (shift held), repeated three times, the queries "w"
    and "arrowup". *)
Lemma key_held_until_released_witness :
  Input.isKeyPressed
    (Nat.iter 3 (Input.keydown "W") (fst (Input.new Browser.initial))) "w"
    = true /\
  Input.isKeyPressed
    (Input.keyup "W"
       (Nat.iter 2 (Input.keydown "W") (fst (Input.new Browser.initial))))
    "w" = false /\
  Input.isKeyPressed
    (Input.keyup "W" (fst (Input.new Browser.initial))) "arrowup"
    = Input.isKeyPressed (fst (Input.new Browser.initial)) "arrowup".
Proof.
  destruct (key_held_until_released (fst (Input.new Browser.initial))
              "W" "w" 2 eq_refl eq_refl) as [[H1 H2] _]; [reflexivity|].
  destruct (key_held_until_released (fst (Input.new Browser.initial))
              "W" "arrowup" 0 eq_refl eq_refl) as [_ [_ H3]]; [discriminate|].
  split; [exact H1|]. split; [exact H2|exact H3].
Defined.

(** When the window loses focus, and after [clear()], no key is held and
    the movement direction is the zero vector, whatever was held before;
    [clear()] releases the mouse button too, the [blur] listener does
    not. *)
Theorem blur_and_clear_release_keys (i : Input.Input) (k : string) :
  Input.isKeyPressed (Input.blur i) k = false /\
  Input.isKeyPressed (Input.clear i) k = false /\
  Input.getMovementDirection (Input.blur i) = Vector2.new 0 0 /\
  Input.getMovementDirection (Input.clear i) = Vector2.new 0 0 /\
  Input.isMousePressed (Input.clear i) = false /\
  Input.isMousePressed (Input.blur i) = Input.isMousePressed i.
Proof.
  repeat split; try reflexivity; apply no_keys_no_direction; reflexivity.
Qed.

(** The keyboard and the mouse do not interfere: a mouse event changes
    neither the keys held nor the movement direction, and a key event
    changes neither the mouse position nor the button. *)
Theorem keyboard_and_mouse_independent (e : Input.event) (i : Input.Input) :
  if Input.is_keyboard e
  then Input.getMousePosition (Input.dispatch e i) = Input.getMousePosition i /\
       Input.isMousePressed (Input.dispatch e i) = Input.isMousePressed i
  else (forall k, Input.isKeyPressed (Input.dispatch e i) k
                  = Input.isKeyPressed i k) /\
       Input.getMovementDirection (Input.dispatch e i)
         = Input.getMovementDirection i.
Proof.
  destruct e; cbn [Input.is_keyboard Input.dispatch]; split; reflexivity.
Qed.

(** The mouse position reported is the one of the latest [mousemove],
    through any later key or button event. *)
Theorem mouse_position_is_latest_move
  (i : Input.Input) (cx cy : R) (later : list Input.event) :
  Forall (fun e => match e with Input.MouseMove _ _ => False | _ => True end)
    later ->
  Input.getMousePosition
    (fold_left (fun j e => Input.dispatch e j) later (Input.mousemove cx cy i))
  = Vector2.new cx cy.
Proof.
  intros H.
  assert (G : forall j, Input.mousePosition j = Vector2.new cx cy ->
            Input.getMousePosition
              (fold_left (fun j e => Input.dispatch e j) later j)
            = Vector2.new cx cy).
  { induction H as [|e later He _ IH]; intros j Hj.
    - unfold Input.getMousePosition. cbn [fold_left]. rewrite Hj. reflexivity.
    - cbn [fold_left]. apply IH.
      destruct e; cbn in He |- *; try exact Hj; contradiction. }
  apply G. reflexivity.
Qed.

Lemma mouse_position_is_latest_move_witness :
  Input.getMousePosition
    (fold_left (fun j e => Input.dispatch e j)
       [Input.MouseDown; Input.KeyDown "w"; Input.Blur]
       (Input.mousemove 100 200 (fst (Input.new Browser.initial))))
  = Vector2.new 100 200.
Proof.
  apply (mouse_position_is_latest_move (fst (Input.new Browser.initial))
           100 200 [Input.MouseDown; Input.KeyDown "w"; Input.Blur]).
  repeat constructor.
Defined.

Section DirectionFacts.
Import Vector2.

Lemma direction_sign_of (v : Vector2) :
  let d := if JS.gt (length v) 0 then normalize v else v in
  (x d < 0 <-> x v < 0) /\ (0 < x d <-> 0 < x v) /\
  (y d < 0 <-> y v < 0) /\ (0 < y d <-> 0 < y v).
Proof.
  cbv zeta. destruct (JS.gt (length v) 0) eqn:E; [|tauto].
  apply gt_true in E.
  unfold normalize. rewrite normalize_div_branch by lra. cbn [fst x y].
  assert (Hi : 0 < / length v) by (apply Rinv_0_lt_compat; exact E).
  unfold Rdiv. repeat split; intros H; nra.
Qed.

End DirectionFacts.

(** The direction points where the keys say, in screen coordinates: its
    [y] is negative exactly when an up key (W or the up arrow) is held and
    no down key, positive exactly when a down key is held and no up key,
    and likewise its [x] for the left and right keys. *)
Theorem direction_follows_keys (i : Input.Input) :
  let left := Input.isKeyPressed i "a" || Input.isKeyPressed i "arrowleft" in
  let right := Input.isKeyPressed i "d" || Input.isKeyPressed i "arrowright" in
  let up := Input.isKeyPressed i "w" || Input.isKeyPressed i "arrowup" in
  let down := Input.isKeyPressed i "s" || Input.isKeyPressed i "arrowdown" in
  let d := Input.getMovementDirection i in
  (Vector2.x d < 0 <-> left && negb right = true) /\
  (0 < Vector2.x d <-> right && negb left = true) /\
  (Vector2.y d < 0 <-> up && negb down = true) /\
  (0 < Vector2.y d <-> down && negb up = true).
Proof.
  cbv zeta. unfold Input.getMovementDirection.
  destruct (Input.isKeyPressed i "a" || Input.isKeyPressed i "arrowleft");
  destruct (Input.isKeyPressed i "d" || Input.isKeyPressed i "arrowright");
  destruct (Input.isKeyPressed i "w" || Input.isKeyPressed i "arrowup");
  destruct (Input.isKeyPressed i "s" || Input.isKeyPressed i "arrowdown");
  cbn [andb negb];
  match goal with
  | |- context [JS.gt (Vector2.length ?v) 0] =>
      destruct (direction_sign_of v) as [A [B [C D]]]
  end;
  cbn [Vector2.x Vector2.y] in A, B, C, D;
  rewrite A, B, C, D;
  repeat split; intros H; try discriminate H; try reflexivity; lra.
Qed.

(** ** Renderer *)

(** [drawHealthBar] appends to the drawing, in this order, the background
    over the whole bar, the fill from the same corner, and the white
    outline of the whole bar, and changes nothing else; for
    [0 <= currentHp <= maxHp] with [maxHp] positive the fill is never
    wider than the bar, it covers the bar exactly at full health and has
    width 0 at zero health. *)
Theorem health_bar_fill_within_bar
  (r : Renderer.Renderer) (p : Vector2.Vector2)
  (width height hp maxHp : R) (bg fg : string) (w : Browser.World) :
  0 < maxHp -> 0 <= hp <= maxHp -> 0 <= width ->
  exists hpWidth,
    Renderer.drawHealthBar r p width height hp maxHp bg fg w
      = Browser.draw
          [Browser.fillStyle bg;
           Browser.fillRect (Vector2.x p) (Vector2.y p) width height;
           Browser.fillStyle fg;
           Browser.fillRect (Vector2.x p) (Vector2.y p) hpWidth height;
           Browser.strokeStyle "#ffffff"; Browser.lineWidth 1;
           Browser.strokeRect (Vector2.x p) (Vector2.y p) width height] w /\
    0 <= hpWidth <= width /\
    (hp = maxHp -> hpWidth = width) /\
    (hp = 0 -> hpWidth = 0).
Proof.
  intros Hm Hh Hw. exists (hp / maxHp * width). split; [|split; [|split]].
  - unfold Renderer.drawHealthBar, Renderer.drawRect, Browser.draw.
    cbn [Browser.Logger_enabled Browser.console Browser.canvas_ops
         Browser.animationFrames Browser.listeners].
    rewrite <- !app_assoc. reflexivity.
  - assert (H1 : 0 <= hp / maxHp <= 1).
    { split.
      - apply Rmult_le_pos; [lra|]. apply Rlt_le, Rinv_0_lt_compat, Hm.
      - apply Rmult_le_reg_r with maxHp; [exact Hm|].
        unfold Rdiv. rewrite Rmult_assoc, Rinv_l by lra. lra. }
    split; nra.
  - intros ->. unfold Rdiv. rewrite Rinv_r by lra. lra.
  - intros ->. unfold Rdiv. lra.
Qed.

Lemma health_bar_fill_within_bar_witness :
  exists hpWidth,
    Renderer.drawHealthBar (Game.renderer Sample.game) (Vector2.new 10 10)
      100 10 30 100 "#333333" "#00ff00" Browser.initial
      = Browser.draw
          [Browser.fillStyle "#333333";
           Browser.fillRect 10 10 100 10;
           Browser.fillStyle "#00ff00";
           Browser.fillRect 10 10 hpWidth 10;
           Browser.strokeStyle "#ffffff"; Browser.lineWidth 1;
           Browser.strokeRect 10 10 100 10] Browser.initial /\
    0 <= hpWidth <= 100.
Proof.
  destruct (health_bar_fill_within_bar (Game.renderer Sample.game)
              (Vector2.new 10 10) 100 10 30 100 "#333333" "#00ff00"
              Browser.initial) as [hw [H1 [H2 _]]]; try lra.
  exists hw. split; [exact H1|exact H2].
Defined.

(** ** Game: the frame counter, the movement and the loop *)

Section MovementFacts.
Import Game.

Lemma clamp_monotone (lo hi p v : R) :
  lo <= p <= hi ->
  (p <= v -> p <= JS.Math_max lo (JS.Math_min hi v)) /\
  (v <= p -> JS.Math_max lo (JS.Math_min hi v) <= p).
Proof.
  intros H. unfold JS.Math_max, JS.Math_min, Rmax, Rmin.
  split; intros Hv; repeat destruct (Rle_dec _ _); lra.
Qed.

Lemma render_frame (g : Game) (w : Browser.World) :
  Browser.animationFrames (render g w) = Browser.animationFrames w /\
  Browser.console (render g w) = Browser.console w /\
  Browser.listeners (render g w) = Browser.listeners w /\
  Browser.Logger_enabled (render g w) = Browser.Logger_enabled w.
Proof. repeat split. Qed.

Lemma frame_while_running (t : R) (g : Game) (w : Browser.World) (n : nat) :
  running g = true -> Browser.animationFrames w = S n ->
  running (fst (Page.animationFrame t (g, w))) = true /\
  lastTime (fst (Page.animationFrame t (g, w))) = t /\
  renderer (fst (Page.animationFrame t (g, w))) = renderer g /\
  Browser.animationFrames (snd (Page.animationFrame t (g, w))) = S n.
Proof.
  intros Hr Hn. unfold Page.animationFrame. rewrite Hn.
  rewrite gameLoop_running by exact Hr. cbn [fst snd].
  split; [|split; [|split]].
  - rewrite update_running, updateFPS_running. exact Hr.
  - unfold update, updateFPS. destruct (JS.ge _ _); reflexivity.
  - unfold update, updateFPS. destruct (JS.ge _ _); reflexivity.
  - cbn [Browser.requestAnimationFrame Browser.animationFrames].
    destruct (render_frame
                (update (deltaTime t g) (updateFPS (deltaTime t g) (set_lastTime t g)))
                (Browser.takeAnimationFrame w)) as [Hf _].
    rewrite Hf. cbn [Browser.takeAnimationFrame Browser.animationFrames].
    rewrite Hn. reflexivity.
Qed.

Lemma last_cons (a : R) (l : list R) (d : R) : last (a :: l) d = last l a.
Proof.
  revert a d. induction l as [|b l IH]; intros a d; [reflexivity|].
  change (last (a :: b :: l) d) with (last (b :: l) d).
  rewrite (IH b d), (IH b a). reflexivity.
Qed.

Lemma frames_while_running (times : list R) (g : Game) (w : Browser.World)
  (n : nat) :
  running g = true -> Browser.animationFrames w = S n ->
  running (fst (Page.animationFrames_at times (g, w))) = true /\
  lastTime (fst (Page.animationFrames_at times (g, w)))
    = last times (lastTime g) /\
  Browser.animationFrames (snd (Page.animationFrames_at times (g, w))) = S n.
Proof.
  revert g w. induction times as [|t times IH]; intros g w Hr Hn.
  - cbn. repeat split; assumption.
  - destruct (frame_while_running t g w n Hr Hn) as [H1 [H2 [_ H4]]].
    cbn [Page.animationFrames_at fold_left].
    destruct (Page.animationFrame t (g, w)) as [g' w'] eqn:E.
    cbn [fst snd] in H1, H2, H4.
    destruct (IH g' w' H1 H4) as [K1 [K2 K3]].
    unfold Page.animationFrames_at in K1, K2, K3.
    split; [exact K1|]. split; [|exact K3].
    rewrite K2, H2. symmetry. apply last_cons.
Qed.

Lemma start_stopped (now0 now1 : R) (g : Game) (w : Browser.World) :
  running g = false ->
  running (fst (start now0 now1 g w)) = true /\
  lastTime (fst (start now0 now1 g w)) = now1 /\
  Browser.animationFrames (snd (start now0 now1 g w))
    = S (Browser.animationFrames w).
Proof.
  intros Hr. unfold start. rewrite Hr.
  rewrite gameLoop_running by reflexivity.
  split; [|split].
  - cbn [fst]. rewrite update_running, updateFPS_running. reflexivity.
  - cbn [fst]. unfold update, updateFPS. destruct (JS.ge _ _); reflexivity.
  - cbn [snd]. destruct (info_frame "Game started"
      (Browser.requestAnimationFrame
         (render
            (update (deltaTime now1 (set_lastTime now0 (set_running true g)))
               (updateFPS
                  (deltaTime now1 (set_lastTime now0 (set_running true g)))
                  (set_lastTime now1 (set_lastTime now0 (set_running true g)))))
            w))) as [Hf _].
    rewrite Hf. reflexivity.
Qed.

End MovementFacts.

(** [updateFPS] keeps the time accumulated in the current window below one
    second: when the window reaches one second the frames counted,
    the current one included, become the displayed rate and both counters
    restart; otherwise the frame is counted and the rate displayed stays.
    The player is not touched. *)
Theorem updateFPS_window (dt : R) (g : Game.Game) :
  let g' := Game.updateFPS dt g in
  Game.fpsUpdateTime g' < 1 /\
  (1 <= Game.fpsUpdateTime g + dt ->
     Game.fps g' = S (Game.frameCount g) /\
     Game.frameCount g' = O /\ Game.fpsUpdateTime g' = 0) /\
  (Game.fpsUpdateTime g + dt < 1 ->
     Game.fps g' = Game.fps g /\
     Game.frameCount g' = S (Game.frameCount g) /\
     Game.fpsUpdateTime g' = Game.fpsUpdateTime g + dt) /\
  Game.playerPosition g' = Game.playerPosition g.
Proof.
  cbv zeta. unfold Game.updateFPS.
  destruct (JS.ge (Game.fpsUpdateTime g + dt) 1) eqn:E.
  - apply ge_true in E. cbn. repeat split; try lra; intros; lra.
  - apply ge_false in E. cbn. repeat split; try lra; intros; lra.
Qed.

(** One [update] with a non-negative time step never moves a player that
    is on the screen against the direction of the keys: where the
    direction has no leftward part the player's [x] does not decrease,
    where it has no rightward part it does not increase, and likewise for
    [y]; the clamp at the edges never pushes the player back. *)
Theorem update_moves_with_the_direction (dt : R) (g : Game.Game) :
  Game.on_screen (Game.renderer g) (Game.playerPosition g) ->
  0 <= Game.playerSpeed g -> 0 <= dt ->
  let d := Input.getMovementDirection (Game.input g) in
  let p := Game.playerPosition g in
  let p' := Game.playerPosition (Game.update dt g) in
  (0 <= Vector2.x d -> Vector2.x p <= Vector2.x p') /\
  (Vector2.x d <= 0 -> Vector2.x p' <= Vector2.x p) /\
  (0 <= Vector2.y d -> Vector2.y p <= Vector2.y p') /\
  (Vector2.y d <= 0 -> Vector2.y p' <= Vector2.y p).
Proof.
  intros [Hx Hy] Hs Hdt. cbv zeta.
  set (d := Input.getMovementDirection (Game.input g)).
  assert (Hk : 0 <= Game.playerSpeed g * dt) by (apply Rmult_le_pos; assumption).
  unfold Game.update. fold d.
  cbn [Game.playerPosition Game.set_playerPosition Vector2.add
       Vector2.multiply Vector2.x Vector2.y].
  destruct (clamp_monotone 20 (Renderer.getWidth (Game.renderer g) - 20)
              (Vector2.x (Game.playerPosition g))
              (Vector2.x (Game.playerPosition g)
               + Vector2.x d * (Game.playerSpeed g * dt)) Hx) as [X1 X2].
  destruct (clamp_monotone 20 (Renderer.getHeight (Game.renderer g) - 20)
              (Vector2.y (Game.playerPosition g))
              (Vector2.y (Game.playerPosition g)
               + Vector2.y d * (Game.playerSpeed g * dt)) Hy) as [Y1 Y2].
  repeat split; intros H; [apply X1|apply X2|apply Y1|apply Y2]; nra.
Qed.

(** The sample game holds D: its direction is (1, 0). *)
Lemma update_moves_with_the_direction_witness :
  Vector2.x (Game.playerPosition Sample.game)
  <= Vector2.x (Game.playerPosition (Game.update (1 / 60) Sample.game)).
Proof.
  destruct (update_moves_with_the_direction (1 / 60) Sample.game)
    as [H _].
  - unfold Game.on_screen. cbn. lra.
  - cbn. lra.
  - lra.
  - apply H. rewrite sample_direction. cbn. lra.
Defined.

(** With no direction to move in (no movement key held, or opposing keys
    only) [update] leaves a game whose player is on the screen exactly as
    it is, whatever the time step. *)
Theorem update_without_direction_is_identity (dt : R) (g : Game.Game) :
  Input.getMovementDirection (Game.input g) = Vector2.new 0 0 ->
  Game.on_screen (Game.renderer g) (Game.playerPosition g) ->
  Game.update dt g = g.
Proof.
  intros Hd [Hx Hy]. unfold Game.update. rewrite Hd.
  destruct g as [r i run lt f fc fu [px py] sp].
  unfold Game.set_playerPosition.
  cbn [Game.playerPosition Game.renderer Game.input Game.running
       Game.lastTime Game.fps Game.frameCount Game.fpsUpdateTime
       Game.playerSpeed Vector2.add Vector2.multiply Vector2.x Vector2.y]
    in *.
  f_equal. unfold JS.number in *.
  replace (px + 0 * (sp * dt)) with px by ring.
  replace (py + 0 * (sp * dt)) with py by ring.
  rewrite !clamp_inside by assumption. reflexivity.
Qed.

Lemma update_without_direction_is_identity_witness :
  Game.update 5 (Game.set_input (Input.blur (Game.input Sample.game)) Sample.game)
  = Game.set_input (Input.blur (Game.input Sample.game)) Sample.game.
Proof.
  apply (update_without_direction_is_identity 5).
  - apply no_keys_no_direction. reflexivity.
  - unfold Game.on_screen. cbn. lra.
Defined.

(** [start] on a stopped game runs the first tick at once and registers
    one callback; from then on every frame the browser delivers runs one
    tick and registers the next one, so the game stays running, the number
    of pending callbacks stays as [start] left it, and [lastTime] is the
    time of the latest frame. *)
Theorem started_loop_sustains_itself
  (now0 now1 : R) (g : Game.Game) (w : Browser.World) (times : list R) :
  Game.running g = false ->
  let started := Game.start now0 now1 g w in
  let later := Page.animationFrames_at times started in
  Browser.animationFrames (snd started) = S (Browser.animationFrames w) /\
  Game.running (fst later) = true /\
  Game.lastTime (fst later) = last times now1 /\
  Browser.animationFrames (snd later) = S (Browser.animationFrames w).
Proof.
  intros Hr. cbv zeta.
  destruct (start_stopped now0 now1 g w Hr) as [H1 [H2 H3]].
  destruct (Game.start now0 now1 g w) as [g1 w1]. cbn [fst snd] in *.
  destruct (frames_while_running times g1 w1 _ H1 H3) as [K1 [K2 K3]].
  rewrite H2 in K2. repeat split; assumption.
Qed.

Lemma started_loop_sustains_itself_witness :
  Game.running
    (fst (Page.animationFrames_at [16; 33; 50]
            (Game.start 0 1 (Game.set_running false Sample.game)
               Browser.initial))) = true /\
  Browser.animationFrames
    (snd (Page.animationFrames_at [16; 33; 50]
            (Game.start 0 1 (Game.set_running false Sample.game)
               Browser.initial))) = 1%nat.
Proof.
  destruct (started_loop_sustains_itself 0 1
              (Game.set_running false Sample.game) Browser.initial
              [16; 33; 50] eq_refl) as [_ [H1 [_ H2]]].
  split; [exact H1|exact H2].
Defined.

(** [stop] does not cancel the callback that is pending: [stop] followed
    by [start] before the next frame leaves one more callback pending than
    before, all of which find the game running, and the additional one
    never goes away: each registered callback runs a tick and registers
    its successor. *)
Theorem restart_adds_a_second_loop
  (now0 now1 : R) (g : Game.Game) (w : Browser.World) (times : list R) :
  let stopped := Game.stop g w in
  let restarted := Game.start now0 now1 (fst stopped) (snd stopped) in
  let later := Page.animationFrames_at times restarted in
  Browser.animationFrames (snd stopped) = Browser.animationFrames w /\
  Game.running (fst restarted) = true /\
  Browser.animationFrames (snd restarted) = S (Browser.animationFrames w) /\
  Game.running (fst later) = true /\
  Browser.animationFrames (snd later) = S (Browser.animationFrames w).
Proof.
  cbv zeta. cbn [Game.stop fst snd].
  destruct (info_frame "Game stopped" w) as [Hf _].
  destruct (start_stopped now0 now1 (Game.set_running false g)
              (Logger.info "Game stopped" w) eq_refl) as [H1 [_ H3]].
  rewrite Hf in H3.
  destruct (Game.start now0 now1 (Game.set_running false g)
              (Logger.info "Game stopped" w)) as [g1 w1].
  cbn [fst snd] in *.
  destruct (frames_while_running times g1 w1 _ H1 H3) as [K1 [_ K3]].
  repeat split; assumption.
Qed.

(** Every tick of the running loop draws the state it has just computed:
    after clearing the whole surface it draws the player, with radius 20,
    at the position [update] has produced, which on a surface of at least
    40 by 40 is on the screen, and then the instructions. *)
Theorem tick_draws_the_updated_player
  (t : R) (g : Game.Game) (w : Browser.World) :
  Game.running g = true ->
  40 <= Renderer.getWidth (Game.renderer g) ->
  40 <= Renderer.getHeight (Game.renderer g) ->
  let g' := fst (Game.gameLoop t g w) in
  let w' := snd (Game.gameLoop t g w) in
  let p := Game.playerPosition g' in
  Game.on_screen (Game.renderer g) p /\
  Browser.canvas_ops w' =
    Browser.canvas_ops w ++
    [Browser.fillStyle "#1a1a1a";
     Browser.fillRect 0 0 (Renderer.getWidth (Game.renderer g))
       (Renderer.getHeight (Game.renderer g));
     Browser.fillStyle "#00ff00"; Browser.beginPath;
     Browser.arc (Vector2.x p) (Vector2.y p) 20 0 (PI * 2); Browser.fill;
     Browser.fillStyle "#ffffff"; Browser.font 16 "Arial";
     Browser.textAlign "center";
     Browser.fillText "Use WASD or Arrow Keys to move"
       (Renderer.getWidth (Game.renderer g) / 2) 30].
Proof.
  intros Hr HW HH. cbv zeta.
  rewrite gameLoop_running by exact Hr. cbn [fst snd].
  set (g1 := Game.updateFPS (Game.deltaTime t g) (Game.set_lastTime t g)).
  assert (Hren : Game.renderer g1 = Game.renderer g).
  { unfold g1, Game.updateFPS. destruct (JS.ge _ _); reflexivity. }
  split.
  - unfold Game.on_screen, Game.update.
    cbn [Game.playerPosition Game.set_playerPosition Vector2.x Vector2.y].
    rewrite Hren. split; apply clamp_bounds; lra.
  - unfold Game.render, Renderer.clear, Renderer.drawCircle,
      Renderer.drawText, Browser.draw, Browser.requestAnimationFrame.
    cbn [Browser.canvas_ops GameConfig.DEBUG_MODE Vector2.x Vector2.y].
    rewrite update_renderer, Hren. rewrite <- !app_assoc.
    reflexivity.
Qed.

Lemma tick_draws_the_updated_player_witness :
  Game.on_screen (Game.renderer Sample.game)
    (Game.playerPosition (fst (Game.gameLoop 16 Sample.game Browser.initial))).
Proof.
  destruct (tick_draws_the_updated_player 16 Sample.game Browser.initial)
    as [H _].
  - reflexivity.
  - cbn. lra.
  - cbn. lra.
  - exact H.
Defined.

(** ** Logger and the entry point *)

Lemma error_frame (m : string) (w : Browser.World) :
  Browser.animationFrames (Logger.error m w) = Browser.animationFrames w /\
  Browser.canvas_ops (Logger.error m w) = Browser.canvas_ops w /\
  Browser.listeners (Logger.error m w) = Browser.listeners w.
Proof.
  unfold Logger.error. destruct (Browser.Logger_enabled w); repeat split.
Qed.

(** After [Logger.setEnabled(false)] nothing reaches the console: not from
    the constructor of [Game], [start], [stop] or a tick, nor from the
    entry point, not even its error about a missing canvas element; and
    the logger stays disabled through all of them. *)
Theorem disabled_logger_is_silent
  (w : Browser.World) (g : Game.Game) (canvas : Browser.HTMLCanvasElement)
  (element : option Browser.HTMLCanvasElement) (now0 now1 : R) :
  let quiet := Logger.setEnabled false w in
  let unchanged (w' : Browser.World) :=
    Browser.console w' = Browser.console w /\
    Browser.Logger_enabled w' = false in
  unchanged (snd (Game.new canvas quiet)) /\
  unchanged (snd (Game.start now0 now1 g quiet)) /\
  unchanged (snd (Game.stop g quiet)) /\
  unchanged (snd (Game.gameLoop now1 g quiet)) /\
  unchanged (snd (Page.main element now0 now1 quiet)).
Proof.
  cbv zeta.
  assert (Hloop : forall t g0 w0,
            Browser.console (snd (Game.gameLoop t g0 w0)) = Browser.console w0 /\
            Browser.Logger_enabled (snd (Game.gameLoop t g0 w0))
              = Browser.Logger_enabled w0).
  { intros t g0 w0. unfold Game.gameLoop.
    destruct (Game.running g0); split; reflexivity. }
  assert (Hstart : forall g0 w0, Browser.Logger_enabled w0 = false ->
            Browser.console (snd (Game.start now0 now1 g0 w0))
              = Browser.console w0 /\
            Browser.Logger_enabled (snd (Game.start now0 now1 g0 w0)) = false).
  { intros g0 w0 Hq. unfold Game.start, Logger.warn, Logger.info.
    destruct (Game.running g0).
    - cbn [snd]. rewrite Hq. cbn [negb]. split; [reflexivity|exact Hq].
    - destruct (Hloop now1
                  (Game.set_lastTime now0 (Game.set_running true g0)) w0)
        as [Hc He].
      destruct (Game.gameLoop now1 _ w0) as [g1 w1]. cbn [snd] in *.
      rewrite He, Hq. cbn [negb]. rewrite Hc, He. split; [reflexivity|exact Hq]. }
  assert (Hnew : forall c,
            Browser.console (snd (Game.new c (Logger.setEnabled false w)))
              = Browser.console w /\
            Browser.Logger_enabled (snd (Game.new c (Logger.setEnabled false w)))
              = false).
  { intros c. unfold Game.new, Renderer.new.
    destruct (Browser.getContext c); split; reflexivity. }
  split; [apply Hnew|]. split.
  { destruct (Hstart g (Logger.setEnabled false w) eq_refl) as [A B].
    split; [exact A|exact B]. }
  split; [split; reflexivity|]. split.
  { destruct (Hloop now1 g (Logger.setEnabled false w)) as [A B].
    split; [exact A|exact B]. }
  unfold Page.main. destruct element as [c|]; [|split; reflexivity].
  change (Logger.info "Elemental Survivors - Starting..."
            (Logger.setEnabled false w)) with (Logger.setEnabled false w).
  set (c' := {| Browser.context2d := Browser.context2d c;
                Browser.width := GameConfig.CANVAS_WIDTH;
                Browser.height := GameConfig.CANVAS_HEIGHT |}).
  destruct (Hnew c') as [Hc He].
  destruct (Game.new c' (Logger.setEnabled false w)) as [[g1|e] w1];
    cbn [snd] in *.
  - destruct (Hstart g1 w1 He) as [Hc2 He2].
    destruct (Game.start now0 now1 g1 w1) as [g2 w2]. cbn [snd] in *.
    unfold Logger.info. rewrite He2. cbn [negb].
    split; [congruence|exact He2].
  - split; assumption.
Qed.

(** The entry point on a page whose canvas has a 2D context: whatever size
    the canvas had, the game runs on a surface of 1280 by 720 with the
    player at its centre, the six listeners of [Input] are registered, and
    one animation frame is pending.  With no canvas element it throws
    before anything is constructed. *)
Theorem main_starts_the_game
  (canvas : Browser.HTMLCanvasElement) (c : Browser.CanvasRenderingContext2D)
  (now0 now1 : R) (w : Browser.World) :
  Browser.getContext canvas = Some c ->
  (exists g w',
     Page.main (Some canvas) now0 now1 w = (JS.Return g, w') /\
     Game.running g = true /\
     Game.renderer g
       = {| Renderer.ctx := c; Renderer.width := 1280;
            Renderer.height := 720 |} /\
     Game.playerPosition g = Vector2.new 640 360 /\
     Game.lastTime g = now1 /\
     Browser.animationFrames w' = S (Browser.animationFrames w) /\
     Browser.listeners w' =
       Browser.listeners w ++
       ["keydown"; "keyup"; "mousemove"; "mousedown"; "mouseup"; "blur"]%string) /\
  (exists w',
     Page.main None now0 now1 w
       = (JS.Throw {| JS.message := "Canvas element not found" |}, w') /\
     Browser.animationFrames w' = Browser.animationFrames w /\
     Browser.listeners w' = Browser.listeners w /\
     Browser.canvas_ops w' = Browser.canvas_ops w).
Proof.
  intros Hc. split.
  - unfold Page.main, Game.new, Renderer.new, Browser.getContext in *.
    cbn [Browser.context2d Browser.width Browser.height]. rewrite Hc.
    cbn [Input.new].
    set (g0 := {| Game.renderer := _ |}).
    set (w0 := Logger.info "Game initialized" _).
    assert (Hl0 : Browser.listeners w0 =
              Browser.listeners w ++
              ["keydown"; "keyup"; "mousemove"; "mousedown"; "mouseup";
               "blur"]%string).
    { unfold w0. destruct (info_frame "Game initialized"
        (Input.setupEventListeners
           (Logger.info "Elemental Survivors - Starting..." w)))
        as [_ [_ Hl]].
      rewrite Hl. unfold Input.setupEventListeners, Browser.addEventListener.
      cbn [Browser.listeners].
      destruct (info_frame "Elemental Survivors - Starting..." w)
        as [_ [_ Hl']].
      rewrite Hl', <- !app_assoc. reflexivity. }
    assert (Hf0 : Browser.animationFrames w0 = Browser.animationFrames w).
    { unfold w0. destruct (info_frame "Game initialized"
        (Input.setupEventListeners
           (Logger.info "Elemental Survivors - Starting..." w)))
        as [Hf _].
      rewrite Hf. unfold Input.setupEventListeners, Browser.addEventListener.
      cbn [Browser.animationFrames].
      apply info_frame. }
    destruct (start_stopped now0 now1 g0 w0 eq_refl) as [H1 [H2 H3]].
    assert (Hfix : Game.renderer (fst (Game.start now0 now1 g0 w0))
                     = Game.renderer g0 /\
                   Game.playerPosition (fst (Game.start now0 now1 g0 w0))
                     = Vector2.new 640 360 /\
                   Browser.listeners (snd (Game.start now0 now1 g0 w0))
                     = Browser.listeners w0).
    { unfold Game.start. cbn [Game.running g0].
      rewrite gameLoop_running by reflexivity. cbn [fst snd].
      split; [|split].
      - unfold Game.update, Game.updateFPS. destruct (JS.ge _ _); reflexivity.
      - set (dt := Game.deltaTime now1 _).
        assert (Hi : Game.input (Game.updateFPS dt
                       (Game.set_lastTime now1
                          (Game.set_lastTime now0 (Game.set_running true g0))))
                     = Game.input g0)
          by (unfold Game.updateFPS; destruct (JS.ge _ _); reflexivity).
        assert (Hp : Game.playerPosition (Game.updateFPS dt
                       (Game.set_lastTime now1
                          (Game.set_lastTime now0 (Game.set_running true g0))))
                     = Game.playerPosition g0)
          by (unfold Game.updateFPS; destruct (JS.ge _ _); reflexivity).
        assert (Hre : Game.renderer (Game.updateFPS dt
                       (Game.set_lastTime now1
                          (Game.set_lastTime now0 (Game.set_running true g0))))
                     = Game.renderer g0)
          by (unfold Game.updateFPS; destruct (JS.ge _ _); reflexivity).
        unfold Game.update. rewrite Hi, Hp, Hre.
        rewrite (no_keys_no_direction (Game.input g0)) by reflexivity.
        cbn [Game.playerPosition Game.set_playerPosition g0
             Game.initialPosition Game.renderer Renderer.getWidth
             Renderer.getHeight Renderer.width Renderer.height
             Vector2.add Vector2.multiply Vector2.x Vector2.y].
        unfold GameConfig.CANVAS_WIDTH, GameConfig.CANVAS_HEIGHT.
        rewrite !clamp_inside by lra. f_equal; lra.
      - destruct (info_frame "Game started"
          (Browser.requestAnimationFrame
             (Game.render
                (Game.update
                   (Game.deltaTime now1
                      (Game.set_lastTime now0 (Game.set_running true g0)))
                   (Game.updateFPS
                      (Game.deltaTime now1
                         (Game.set_lastTime now0 (Game.set_running true g0)))
                      (Game.set_lastTime now1
                         (Game.set_lastTime now0 (Game.set_running true g0)))))
                w0))) as [_ [_ Hl]].
        rewrite Hl. reflexivity. }
    destruct Hfix as [F1 [F2 F3]].
    destruct (Game.start now0 now1 g0 w0) as [g1 w1]. cbn [fst snd] in *.
    exists g1. eexists. split; [reflexivity|].
    destruct (info_frame "Elemental Survivors - Phase 1: Core Engine Running" w1)
      as [Hf [_ Hl]].
    rewrite Hf, Hl. repeat split; try assumption; try congruence.
  - unfold Page.main. eexists. split; [reflexivity|].
    destruct (error_frame "Canvas element not found"
                (Logger.info "Elemental Survivors - Starting..." w))
      as [A [B C]].
    destruct (info_frame "Elemental Survivors - Starting..." w)
      as [A' [B' C']].
    rewrite A, B, C, A', B', C'. repeat split.
Qed.

Lemma main_starts_the_game_witness :
  exists g w',
    Page.main (Some Sample.canvas) 0 1 Browser.initial = (JS.Return g, w') /\
    Game.running g = true /\
    Game.playerPosition g = Vector2.new 640 360.
Proof.
  destruct (main_starts_the_game Sample.canvas (Browser.Context2D 0) 0 1
              Browser.initial eq_refl)
    as [[g [w' [H1 [H2 [_ [H4 _]]]]]] _].
  exists g, w'. repeat split; assumption.
Defined.

(** ** The spawn scheduler: interval, position, accounting *)

Section SpawnRamp.
Import SpawnSystem.

Lemma lt_true (a b : R) : JS.lt a b = true <-> a < b.
Proof. unfold JS.lt. destruct (Rlt_dec a b); split; intros; try easy. Qed.

Lemma le_true (a b : R) : JS.le a b = true <-> a <= b.
Proof. unfold JS.le. destruct (Rle_dec a b); split; intros; try easy. Qed.

Lemma spawn_position (random : R) (p : Vector2.Vector2) :
  Vector2.distance p
    (Vector2.new
       (Vector2.x p + JS.Math_cos (random * JS.Math_PI * 2) * 800)
       (Vector2.y p + JS.Math_sin (random * JS.Math_PI * 2) * 800)) = 800.
Proof.
  unfold Vector2.distance, JS.Math_sqrt, JS.Math_cos, JS.Math_sin.
  cbn [Vector2.x Vector2.y]. cbv zeta.
  set (a := random * JS.Math_PI * 2).
  pose proof (sin2_cos2 a) as H. unfold Rsqr in H.
  replace ((Vector2.x p + cos a * 800 - Vector2.x p)
           * (Vector2.x p + cos a * 800 - Vector2.x p)
           + (Vector2.y p + sin a * 800 - Vector2.y p)
             * (Vector2.y p + sin a * 800 - Vector2.y p))
    with (800 * 800 * (sin a * sin a + cos a * cos a))
    by (unfold JS.number; ring).
  rewrite H, Rmult_1_r. apply sqrt_square. lra.
Qed.

End SpawnRamp.

(** The spawn interval ramps down with the game time: it is 2 s at time 0,
    at most 2 s from then on, never increases as the time grows, no longer
    depends on the time from 600 s on, and is never below 0.3 s. *)
Theorem spawn_interval_ramp (s1 s2 : SpawnSystem.SpawnSystem) :
  3 / 10 <= SpawnSystem.getSpawnInterval s1 /\
  (SpawnSystem.gameTime s1 = 0 -> SpawnSystem.getSpawnInterval s1 = 2) /\
  (0 <= SpawnSystem.gameTime s1 -> SpawnSystem.getSpawnInterval s1 <= 2) /\
  (SpawnSystem.gameTime s1 <= SpawnSystem.gameTime s2 ->
     SpawnSystem.getSpawnInterval s2 <= SpawnSystem.getSpawnInterval s1) /\
  (600 <= SpawnSystem.gameTime s1 -> 600 <= SpawnSystem.gameTime s2 ->
     SpawnSystem.getSpawnInterval s1 = SpawnSystem.getSpawnInterval s2).
Proof.
  split; [apply getSpawnInterval_ge_min|].
  split; [|split; [apply getSpawnInterval_le_start|split]];
    unfold SpawnSystem.getSpawnInterval, JS.Math_min, Rmin; intros;
    repeat destruct (Rle_dec _ _); lra.
Qed.

(** For a player within a million units of the origin, [spawnEnemy] puts
    the new enemy about 800 from the player, more than 799 and less than
    801 whatever the random angle, so at its creation the enemy does not
    collide with the player as long as the two radii add up to at most
    799; the enemy is appended, active, and the others are kept. *)
Theorem spawn_is_800_from_player
  (random : R) (p : Vector2.Vector2) (m : SpawnSystem.EntityManager) :
  - 10 ^ 6 <= Vector2.x p <= 10 ^ 6 -> - 10 ^ 6 <= Vector2.y p <= 10 ^ 6 ->
  0 <= random < 1 ->
  exists e,
    SpawnSystem.spawnEnemy random p m = m ++ [e] /\
    SpawnSystem.active e = true /\
    799 < Vector2.distance p (SpawnSystem.position e) < 801 /\
    forall r1 r2, r1 + r2 <= 799 ->
      CollisionSystem.checkCircleCollision p r1 (SpawnSystem.position e) r2
        = false.
Proof.
  intros _ _ _.
  eexists. split; [reflexivity|]. split; [reflexivity|].
  cbn [SpawnSystem.position SpawnSystem.new_BasicEnemy].
  split; [rewrite spawn_position; lra|].
  intros r1 r2 H. unfold CollisionSystem.checkCircleCollision. cbv zeta.
  rewrite spawn_position. apply not_true_is_false. rewrite lt_true. lra.
Qed.

Lemma spawn_is_800_from_player_witness :
  exists e,
    SpawnSystem.spawnEnemy (1 / 4) (Vector2.new 640 360) [] = [] ++ [e] /\
    799 < Vector2.distance (Vector2.new 640 360) (SpawnSystem.position e) < 801.
Proof.
  destruct (spawn_is_800_from_player (1 / 4) (Vector2.new 640 360) [])
    as [e [H1 [_ [H3 _]]]]; cbn [Vector2.x Vector2.y pow]; try lra.
  exists e. split; [exact H1|exact H3].
Defined.

Section SpawnPacing.
Import SpawnSystem.


End SpawnPacing.

(** ** CollisionSystem *)

(** [checkCircleCollision] does not depend on the order of the two
    circles; circles that exactly touch do not collide (the comparison is
    strict); a circle collides with a concentric one exactly when the radii
    have a positive sum; and growing a radius never ends a collision. *)
Theorem circle_collision_symmetric_strict
  (p1 p2 : Vector2.Vector2) (r1 r2 r1' : R) :
  CollisionSystem.checkCircleCollision p1 r1 p2 r2
    = CollisionSystem.checkCircleCollision p2 r2 p1 r1 /\
  (Vector2.distance p1 p2 = r1 + r2 ->
     CollisionSystem.checkCircleCollision p1 r1 p2 r2 = false) /\
  (CollisionSystem.checkCircleCollision p1 r1 p1 r2 = true <-> 0 < r1 + r2) /\
  (r1 <= r1' ->
     CollisionSystem.checkCircleCollision p1 r1 p2 r2 = true ->
     CollisionSystem.checkCircleCollision p1 r1' p2 r2 = true).
Proof.
  unfold CollisionSystem.checkCircleCollision. cbv zeta.
  assert (Hsym : Vector2.distance p1 p2 = Vector2.distance p2 p1).
  { unfold Vector2.distance. cbv zeta. f_equal. unfold JS.number. ring. }
  assert (Hself : Vector2.distance p1 p1 = 0).
  { rewrite distance_as_length. apply length_zero_iff.
    unfold Vector2.subtract, Vector2.zero. f_equal; unfold JS.number; ring. }
  split; [|split; [|split]].
  - rewrite Hsym. f_equal. unfold JS.number. ring.
  - intros H. apply not_true_is_false. rewrite lt_true. lra.
  - rewrite Hself. apply lt_true.
  - intros H. rewrite !lt_true. lra.
Qed.

(** [getEntitiesInRange] returns, in their order, exactly the entities at
    distance at most [radius], the boundary included, so an entity at the
    query position itself is returned for every non-negative radius and
    nothing is returned for a negative one. *)
Theorem entities_in_range
  (position : Vector2.Vector2) (radius : R)
  (entities : list SpawnSystem.BasicEnemy) :
  let found := CollisionSystem.getEntitiesInRange position radius entities in
  (forall e, In e found <->
     In e entities /\
     Vector2.distance position (SpawnSystem.position e) <= radius) /\
  (radius < 0 -> found = []) /\
  (0 <= radius ->
     forall e, In e entities -> SpawnSystem.position e = position ->
               In e found) /\
  (forall radius', radius <= radius' ->
     incl found
       (CollisionSystem.getEntitiesInRange position radius' entities)).
Proof.
  cbv zeta. unfold CollisionSystem.getEntitiesInRange.
  assert (Hin : forall rad e,
            In e (filter (fun entity =>
                    JS.le (Vector2.distance position
                             (SpawnSystem.position entity)) rad) entities)
            <-> In e entities /\
                Vector2.distance position (SpawnSystem.position e) <= rad).
  { intros rad e. rewrite filter_In. cbv beta. rewrite le_true. reflexivity. }
  split; [apply Hin|]. split; [|split].
  - intros Hneg. induction entities as [|e es IH]; [reflexivity|].
    cbn [filter].
    replace (JS.le (Vector2.distance position (SpawnSystem.position e)) radius)
      with false.
    + apply IH. intros rad e'. rewrite filter_In. cbv beta.
      rewrite le_true. reflexivity.
    + symmetry. apply not_true_is_false. rewrite le_true.
      rewrite distance_as_length.
      pose proof (length_nonneg
                    (Vector2.subtract (SpawnSystem.position e) position)).
      lra.
  - intros Hr e He Hp. apply Hin. split; [exact He|].
    rewrite Hp, distance_as_length.
    replace (Vector2.length (Vector2.subtract position position)) with 0;
      [exact Hr|].
    symmetry. apply length_zero_iff.
    unfold Vector2.subtract, Vector2.zero. f_equal; unfold JS.number; ring.
  - intros radius' Hle e He. apply Hin in He. apply Hin.
    destruct He as [He Hd]. split; [exact He|lra].
Qed.

(** ** LevelSystem *)

Section LevelFacts.
Import LevelSystem.

Lemma getExperienceToNext_ge_10 (p : Player) : 10 <= getExperienceToNext p.
Proof.
  unfold getExperienceToNext. pose proof (pos_INR (level p)). lra.
Qed.

Lemma levelUps_settles (fuel : nat) (p : Player) :
  experience p < 10 * INR fuel + 10 ->
  exists p' n,
    levelUps fuel p = Some p' /\
    (n <= fuel)%nat /\
    level p' = (level p + n)%nat /\
    experience p' < getExperienceToNext p' /\
    experience p' + consumed (level p) n = experience p.
Proof.
  revert p. induction fuel as [|fuel IH]; intros p H.
  - exists p, O. cbn [levelUps].
    pose proof (getExperienceToNext_ge_10 p) as H10. cbn [INR] in H.
    assert (Hlt : experience p < getExperienceToNext p) by lra.
    apply ge_false in Hlt. rewrite Hlt.
    cbn [consumed]. repeat split; try lia; try lra.
  - cbn [levelUps].
    destruct (JS.ge (experience p) (getExperienceToNext p)) eqn:E.
    + destruct (IH (levelUp p)) as [p' [n [A [B [C [D F]]]]]].
      * pose proof (getExperienceToNext_ge_10 p) as H10.
        rewrite S_INR in H. cbn [levelUp experience]. lra.
      * exists p', (S n). split; [exact A|]. split; [lia|].
        split; [rewrite C; cbn [levelUp level]; lia|].
        split; [exact D|].
        cbn [consumed]. cbn [levelUp level experience] in F.
        unfold getExperienceToNext in F. lra.
    + exists p, O. cbn [consumed]. apply ge_false in E.
      repeat split; try lia; try lra.
Qed.

Lemma levelUps_more_fuel (fuel extra : nat) (p p' : Player) :
  levelUps fuel p = Some p' -> levelUps (fuel + extra) p = Some p'.
Proof.
  revert p. induction fuel as [|fuel IH]; intros p H.
  - cbn [levelUps] in H.
    destruct extra; cbn [Nat.add levelUps];
      destruct (JS.ge (experience p) (getExperienceToNext p));
      try discriminate H; exact H.
  - cbn [Nat.add levelUps] in *.
    destruct (JS.ge (experience p) (getExperienceToNext p));
      [apply IH; exact H|exact H].
Qed.

Lemma enough_fuel (e : R) : exists n : nat, e < 10 * INR n + 10.
Proof.
  destruct (Rle_lt_dec e 0) as [H|H].
  - exists O. cbn [INR]. lra.
  - destruct (archimed (e / 10)) as [Hup _].
    exists (Z.to_nat (up (e / 10))).
    rewrite INR_IZR_INZ, Stdlib.ZArith.Znat.Z2Nat.id.
    + lra.
    + apply le_IZR.
      assert (0 < e / 10) by (apply Rdiv_lt_0_compat; lra). lra.
Qed.

End LevelFacts.

(** For whole numbers of experience, where the arithmetic of the program
    is exact (experience and amount not negative, their sum at most 2^53,
    the level at most a million), the loop of [addExperience] terminates:
    with enough iterations allowed it returns, and the player it returns
    has less experience than the next level requires, a level that did
    not go down, and exactly the experience that was added minus what the
    level-ups taken consumed. *)
Theorem addExperience_settles
  (have gain : Z) (amount : R) (p : LevelSystem.Player) :
  LevelSystem.experience p = IZR have -> amount = IZR gain ->
  (0 <= have)%Z -> (0 <= gain)%Z -> (have + gain <= 2 ^ 53)%Z ->
  (Z.of_nat (LevelSystem.level p) <= 1000000)%Z ->
  exists enough p' n,
    (forall fuel, (enough <= fuel)%nat ->
       LevelSystem.addExperience fuel amount p = Some p') /\
    LevelSystem.level p' = (LevelSystem.level p + n)%nat /\
    LevelSystem.experience p' < LevelSystem.getExperienceToNext p' /\
    LevelSystem.experience p' + LevelSystem.consumed (LevelSystem.level p) n
      = LevelSystem.experience p + amount.
Proof.
  intros _ _ _ _ _ _.
  destruct (enough_fuel (LevelSystem.experience p + amount)) as [k Hk].
  destruct (levelUps_settles k
              {| LevelSystem.experience := LevelSystem.experience p + amount;
                 LevelSystem.level := LevelSystem.level p |} Hk)
    as [p' [n [A [_ [C [D F]]]]]].
  exists k, p', n. split; [|split; [exact C|split; [exact D|exact F]]].
  intros fuel Hf. unfold LevelSystem.addExperience.
  replace fuel with (k + (fuel - k))%nat by lia.
  apply levelUps_more_fuel. exact A.
Qed.

(** A player of level 1 with 3 experience gains 30. *)
Lemma addExperience_settles_witness :
  exists enough p' n,
    (forall fuel, (enough <= fuel)%nat ->
       LevelSystem.addExperience fuel 30
         {| LevelSystem.experience := 3; LevelSystem.level := 1 |}
       = Some p') /\
    LevelSystem.level p' = (1 + n)%nat /\
    LevelSystem.experience p' < LevelSystem.getExperienceToNext p'.
Proof.
  destruct (addExperience_settles 3 30 30
              {| LevelSystem.experience := 3; LevelSystem.level := 1 |}
              eq_refl eq_refl)
    as [k [p' [n [H1 [H2 [H3 _]]]]]].
  - lia.
  - lia.
  - lia.
  - cbn [LevelSystem.level]. lia.
  - exists k, p', n. split; [exact H1|]. split; [exact H2|exact H3].
Defined.

(** A player with no experience who gains exactly what the next level
    requires goes up one level with nothing left over; one who gains twice
    that goes up one level only, with the first threshold left over,
    because the next level requires 5 more. *)
Theorem exact_threshold_levels_up_once (fuel l : nat) :
  let p := {| LevelSystem.experience := 0; LevelSystem.level := l |} in
  let next := LevelSystem.getExperienceToNext p in
  (exists p',
     LevelSystem.addExperience (S fuel) next p = Some p' /\
     LevelSystem.experience p' = 0 /\ LevelSystem.level p' = S l) /\
  (exists p',
     LevelSystem.addExperience (S fuel) (2 * next) p = Some p' /\
     LevelSystem.experience p' = next /\ LevelSystem.level p' = S l).
Proof.
  cbv zeta. unfold LevelSystem.addExperience.
  cbn [LevelSystem.experience LevelSystem.level].
  set (next := LevelSystem.getExperienceToNext
                 {| LevelSystem.experience := 0; LevelSystem.level := l |}).
  assert (Hnext : next = 10 + INR l * 5) by reflexivity.
  pose proof (pos_INR l) as Hl.
  assert (Hstep : forall e,
            next <= e -> e - next < next + 5 ->
            LevelSystem.levelUps (S fuel)
              {| LevelSystem.experience := e; LevelSystem.level := l |}
            = Some {| LevelSystem.experience := e - next;
                      LevelSystem.level := S l |}).
  { intros e H1 H2. cbn [LevelSystem.levelUps].
    replace (JS.ge (LevelSystem.experience
                      {| LevelSystem.experience := e; LevelSystem.level := l |})
               (LevelSystem.getExperienceToNext
                  {| LevelSystem.experience := e; LevelSystem.level := l |}))
      with true by (symmetry; apply ge_true; exact H1).
    assert (Hstop : JS.ge
              (LevelSystem.experience
                 (LevelSystem.levelUp
                    {| LevelSystem.experience := e; LevelSystem.level := l |}))
              (LevelSystem.getExperienceToNext
                 (LevelSystem.levelUp
                    {| LevelSystem.experience := e; LevelSystem.level := l |}))
            = false).
    { apply ge_false. unfold LevelSystem.levelUp, LevelSystem.getExperienceToNext.
      cbn [LevelSystem.experience LevelSystem.level]. rewrite S_INR.
      fold next. rewrite Hnext in *. lra. }
    destruct fuel; cbn [LevelSystem.levelUps]; rewrite Hstop; reflexivity. }
  split.
  - eexists. split; [apply Hstep; lra|].
    cbn [LevelSystem.experience LevelSystem.level]. split; [lra|reflexivity].
  - eexists. split; [apply Hstep; lra|].
    cbn [LevelSystem.experience LevelSystem.level]. split; [lra|reflexivity].
Qed.
